(** * Library catalogue (library.py): a shallow embedding and its properties

    The embedding follows [src/library.py]: the classes [Book] and [Library],
    with Python objects kept in a store so that object identity (which
    [list.remove] falls back on, [Book] defining no [__eq__]) is visible, and
    with exceptions threaded through a small state-and-exception monad. *)

From Stdlib Require Import List String Ascii Bool Arith ZArith Lia.
Import ListNotations.
Open Scope string_scope.
Open Scope list_scope.
Set Warnings "-register-all".

(** ** Python values *)

(** The values [json.load] can return, which are also the values a [Book]
    attribute can hold.  A string is its UTF-8 byte sequence.  The code never
    looks inside a number, so a float is kept opaque. *)
Inductive pyval : Type :=
| PNone
| PBool (b : bool)
| PInt (z : Z)
| PFloat (repr : string)
| PStr (s : string)
| PList (l : list pyval)
| PDict (d : list (string * pyval)).

(** The exceptions the code can raise, and those [json.load] can raise into
    it.  [ValueError] stands for every ValueError that is not a
    JSONDecodeError, [UnicodeDecodeError] among them: the [except] clauses
    tell exceptions apart by these classes only. *)
Inductive exn : Type :=
| JSONDecodeError
| KeyError (key : string)
| TypeError
| ValueError
| SystemExit
| RecursionError
| OSError
| MemoryError.

(** [x == s] for a [str] s: no other JSON value compares equal to a string. *)
Definition py_eq_str (x : pyval) (s : string) : bool :=
  match x with
  | PStr t => String.eqb t s
  | _ => false
  end.

(** Truth value of a [str]: the empty string is false. *)
Definition truthy (s : string) : bool := negb (String.eqb s "").

(** [hash(x)] succeeds: lists and dicts are unhashable. *)
Definition hashable (x : pyval) : bool :=
  match x with
  | PList _ | PDict _ => false
  | _ => true
  end.

(** Dictionary lookup in an association list (the first binding of a key is
    the dictionary's entry). *)
Fixpoint assoc {A : Type} (k : string) (d : list (string * A)) : option A :=
  match d with
  | [] => None
  | (k', v) :: r => if String.eqb k' k then Some v else assoc k r
  end.

(** [functools.reduce(f, l)] with no initial value: undefined on the empty
    sequence (Python raises [TypeError] there). *)
Definition reduce {A : Type} (f : A -> A -> A) (l : list A) : option A :=
  match l with
  | [] => None
  | x :: r => Some (fold_left f r x)
  end.

(** A continuation byte of UTF-8 (10xxxxxx). *)
Definition utf8_cont (c : ascii) : bool :=
  let n := nat_of_ascii c in ((128 <=? n) && (n <? 192))%nat.

(** The characters of a string, each as a one-character string: iterating
    over a [str] yields its code points. *)
Fixpoint chars (s : string) : list string :=
  match s with
  | EmptyString => []
  | String c r =>
      match chars r with
      | [] => [String c EmptyString]
      | x :: xs =>
          match r with
          | String c' _ =>
              if utf8_cont c' then String c x :: xs
              else String c EmptyString :: x :: xs
          | EmptyString => [String c EmptyString]
          end
      end
  end.

(** ** Objects and the store *)

Definition addr := nat.

(** A [Book] instance's [__dict__], in the order [__init__] assigns it. *)
Record Book : Type := mkBook {
  id : pyval;
  title : pyval;
  author : pyval;
  year : pyval;
  status : pyval
}.

(** The process state: the Book objects allocated so far, and the [books]
    list of the Library under consideration, a list of references. *)
Record state : Type := mkState {
  heap : addr -> Book;
  next : addr;
  books : list addr
}.

Definition upd (h : addr -> Book) (a : addr) (b : Book) : addr -> Book :=
  fun x => if Nat.eqb x a then b else h x.

(** ** A state-and-exception monad *)

Inductive outcome (A : Type) : Type :=
| Ok (a : A)
| Raise (e : exn).
Arguments Ok {A} a.
Arguments Raise {A} e.

Definition M (A : Type) : Type := state -> outcome A * state.

Definition ret {A : Type} (a : A) : M A := fun st => (Ok a, st).

Definition raise {A : Type} (e : exn) : M A := fun st => (Raise e, st).

Definition bind {A B : Type} (m : M A) (k : A -> M B) : M B :=
  fun st =>
    match m st with
    | (Ok a, st') => k a st'
    | (Raise e, st') => (Raise e, st')
    end.

(** [try: m  except ...: handler] *)
Definition try_except {A : Type} (m : M A) (handler : exn -> M A) : M A :=
  fun st =>
    match m st with
    | (Ok a, st') => (Ok a, st')
    | (Raise e, st') => handler e st'
    end.

Declare Scope py_scope.
Delimit Scope py_scope with py.
Notation "x <- m ;; k" := (bind m (fun x => k))
  (at level 61, m at next level, right associativity) : py_scope.
Notation "m ;;; k" := (bind m (fun _ => k))
  (at level 61, right associativity) : py_scope.
Open Scope py_scope.

(** [for x in l: body x] *)
Fixpoint for_each {A : Type} (l : list A) (body : A -> M unit) : M unit :=
  match l with
  | [] => ret tt
  | x :: r => body x ;;; for_each r body
  end.

(** ** Operations on Python values that can raise *)

(** An operation that does not touch the state, run in the monad. *)
Definition lift {A : Type} (o : outcome A) : M A := fun st => (o, st).

(** [x[key]] for a string key: a dict is looked up, anything else rejects the
    subscript. *)
Definition getitem (x : pyval) (key : string) : outcome pyval :=
  match x with
  | PDict d =>
      match assoc key d with
      | Some v => Ok v
      | None => Raise (KeyError key)
      end
  | _ => Raise TypeError
  end.

(** [iter(x)]: a list yields its elements, a dict its keys, a string its
    characters; other JSON values are not iterable. *)
Definition iter (x : pyval) : outcome (list pyval) :=
  match x with
  | PList l => Ok l
  | PDict d => Ok (map (fun kv => PStr (fst kv)) d)
  | PStr s => Ok (map PStr (chars s))
  | _ => Raise TypeError
  end.

(** [x in d] for a dict d with string keys: x is hashed first, and only a
    string can be equal to a key. *)
Definition dict_contains {A : Type} (d : list (string * A)) (x : pyval)
  : outcome bool :=
  if hashable x
  then Ok (match x with
           | PStr s => match assoc s d with Some _ => true | None => false end
           | _ => false
           end)
  else Raise TypeError.

(** ** The classes *)

Section Process.

(** [str(uuid4().int)]: the default value of [__init__]'s parameter [id].
    Python evaluates a default once, when the [def] statement runs, so the
    process has one such string. *)
Variable default_id : string.

(** *** class Book *)

Definition BOOK_STATUSES : list (string * string) :=
  [("0", "Выдана"); ("1", "В наличии")].

(** [BOOK_STATUSES.values()] *)
Definition status_values : list string := map snd BOOK_STATUSES.

(** [status in self.BOOK_STATUSES.values()] *)
Definition status_ok (s : pyval) : bool :=
  existsb (py_eq_str s) status_values.

(** [Book(title, author, year, id, status)]; [None] for an argument left to
    its default.  The new object's reference is returned.  When [__init__]
    raises, the object it was filling is referenced by nothing and is left
    out of the store. *)
Definition Book_init (title author year : pyval)
  (id status : option pyval) : M addr :=
  fun st =>
    let id' := match id with Some i => i | None => PStr default_id end in
    let status' := match status with Some s => s | None => PStr "В наличии" end in
    if status_ok status'
    then (Ok (next st),
          mkState (upd (heap st) (next st)
                     (mkBook id' title author year status'))
                  (S (next st)) (books st))
    else (Raise ValueError, st).

(** [book.set_status(status)] *)
Definition set_status (self : addr) (code : string) : M unit :=
  fun st =>
    match assoc code BOOK_STATUSES with
    | Some label =>
        let b := heap st self in
        (Ok tt,
         mkState (upd (heap st) self
                    (mkBook (id b) (title b) (author b) (year b) (PStr label)))
                 (next st) (books st))
    | None => (Raise (KeyError code), st)
    end.

(** *** class Library *)

(** [Library()]: a new Library, with an empty list. *)
Definition Library_init (st : state) : state :=
  mkState (heap st) (next st) [].

(** [self.books.append(book)] *)
Definition add_book (book : addr) : M unit :=
  fun st => (Ok tt, mkState (heap st) (next st) (books st ++ [book])).

(** [l.remove(x)] on a list of references: the first element that is x.
    [Book] defines no [__eq__], so [==] on Books is identity. *)
Fixpoint list_remove (x : addr) (l : list addr) : option (list addr) :=
  match l with
  | [] => None
  | y :: r =>
      if Nat.eqb y x then Some r
      else match list_remove x r with
           | Some r' => Some (y :: r')
           | None => None
           end
  end.

(** [self.books.remove(book)] *)
Definition delete (book : addr) : M unit :=
  fun st =>
    match list_remove book (books st) with
    | Some l => (Ok tt, mkState (heap st) (next st) l)
    | None => (Raise ValueError, st)
    end.

(** [return self.books] *)
Definition list_ (st : state) : list addr := books st.

(** What a file stream is to [json.load]: text that is not JSON; text that
    parses to a value; or a stream on which [json.load] raises another
    exception: ValueError for bytes that are not text in the file's encoding
    or for an integer with more digits than the interpreter converts,
    RecursionError for JSON nested deeper than the interpreter allows,
    OSError for a read that fails, MemoryError. *)
Inductive stream : Type :=
| Malformed
| Parsed (v : pyval)
| Failing (e : exn).

Definition json_load (fp : stream) : outcome pyval :=
  match fp with
  | Malformed => Raise JSONDecodeError
  | Parsed v => Ok v
  | Failing e => Raise e
  end.

(** The body of the loop of [load_data]; [ids_set] is the dict the method
    creates before the loop (the loop never stores into it). *)
Definition load_book (ids_set : list (string * pyval)) (book : pyval)
  : M unit :=
  i <- lift (getitem book "id") ;;
  dup <- lift (dict_contains ids_set i) ;;
  if (dup : bool) then raise ValueError
  else
    t <- lift (getitem book "title") ;;
    a <- lift (getitem book "author") ;;
    y <- lift (getitem book "year") ;;
    i <- lift (getitem book "id") ;;
    s <- lift (getitem book "status") ;;
    b <- Book_init t a y (Some i) (Some s) ;;
    add_book b.

(** [exit(...)] of the [site] module takes at most one argument: with one it
    raises [SystemExit], with two the call itself is a [TypeError]. *)
Definition exit1 {A : Type} : M A := raise SystemExit.
Definition exit2 {A : Type} : M A := raise TypeError.

(** [library.load_data(fp)] *)
Definition load_data (fp : stream) : M unit :=
  try_except
    (doc <- lift (json_load fp) ;;
     data <- lift (getitem doc "books") ;;
     let ids_set : list (string * pyval) := [] in
     items <- lift (iter data) ;;
     for_each items (load_book ids_set))
    (fun e =>
       match e with
       | JSONDecodeError | KeyError _ => exit2
       | ValueError => exit1
       | _ => raise e
       end).

(** [default=lambda x: x.__dict__] applied to a Book. *)
Definition Book_dict (b : Book) : pyval :=
  PDict [("id", id b); ("title", title b); ("author", author b);
         ("year", year b); ("status", status b)].

(** What [json.dump(self, fp, default=lambda x: x.__dict__)] writes, as the
    value the text denotes: the Library's [__dict__], with each Book
    replaced by its own. *)
Definition dumped (st : state) : pyval :=
  PDict [("books", PList (map (fun a => Book_dict (heap st a)) (books st)))].

(** [library.save(fp)]: the stream afterwards.  [json.load] reads back the
    value [json.dump] wrote. *)
Definition save (st : state) : stream := Parsed (dumped st).

(** The data attributes of a Book, as keyword names of [search]. *)
Inductive field : Type := Fid | Ftitle | Fauthor | Fyear | Fstatus.

Definition field_eqb (f g : field) : bool :=
  match f, g with
  | Fid, Fid | Ftitle, Ftitle | Fauthor, Fauthor
  | Fyear, Fyear | Fstatus, Fstatus => true
  | _, _ => false
  end.

(** [getattr(book, field)] *)
Definition getattr (b : Book) (f : field) : pyval :=
  match f with
  | Fid => id b
  | Ftitle => title b
  | Fauthor => author b
  | Fyear => year b
  | Fstatus => status b
  end.

(** The keyword arguments of a call, in call order, with string values. *)
Definition kwargs := list (field * string).

(** [kwargs['id']] when ['id' in kwargs]. *)
Fixpoint kw_id (kw : kwargs) : option string :=
  match kw with
  | [] => None
  | (f, v) :: r => if field_eqb f Fid then Some v else kw_id r
  end.

(** The list comprehension of [search]: one comparison per criterion whose
    value is true. *)
Definition conditions (b : Book) (kw : kwargs) : list bool :=
  map (fun fv => py_eq_str (getattr b (fst fv)) (snd fv))
      (filter (fun fv => truthy (snd fv)) kw).

(** The first loop of [search]: the first Book whose id is the given one. *)
Fixpoint scan_id (h : addr -> Book) (v : string) (l : list addr)
  : option addr :=
  match l with
  | [] => None
  | a :: r => if py_eq_str (id (h a)) v then Some a else scan_id h v r
  end.

(** The second loop of [search], accumulating [found]. *)
Fixpoint scan_all (h : addr -> Book) (kw : kwargs) (l : list addr)
  (found : list addr) : outcome (list addr) :=
  match l with
  | [] => Ok found
  | a :: r =>
      match reduce andb (conditions (h a) kw) with
      | None => Raise TypeError
      | Some true => scan_all h kw r (found ++ [a])
      | Some false => scan_all h kw r found
      end
  end.

(** What [search] returns: one Book, or a list of Books. *)
Inductive result : Type :=
| One (book : addr)
| Many (found : list addr).

(** [library.search] applied to keyword arguments; it changes nothing. *)
Definition search (kw : kwargs) (st : state) : outcome result :=
  let fallthrough :=
    match scan_all (heap st) kw (books st) [] with
    | Ok found => Ok (Many found)
    | Raise e => Raise e
    end in
  match kw_id kw with
  | Some v =>
      match scan_id (heap st) v (books st) with
      | Some a => Ok (One a)
      | None => fallthrough
      end
  | None => fallthrough
  end.

End Process.

(** ** Vocabulary of the properties *)

(** The two display strings. *)
Definition valid_status (s : pyval) : Prop :=
  s = PStr "В наличии" \/ s = PStr "Выдана".

(** Every Book object allocated so far has one of the two display strings
    as its status. *)
Definition status_inv (st : state) : Prop :=
  forall a, a < next st -> valid_status (status (heap st a)).

(** The state after a Book with the given attributes has been constructed
    and appended to the Library. *)
Definition push (b : Book) (st : state) : state :=
  mkState (upd (heap st) (next st) b) (S (next st)) (books st ++ [next st]).

Definition push_all (bs : list Book) (st : state) : state :=
  fold_left (fun s b => push b s) bs st.

(** The Book a file element describes: an object with the five members, the
    values taken as they are, an id that can be hashed and a status the
    constructor accepts. *)
Definition book_of_item (item : pyval) : option Book :=
  match item with
  | PDict o =>
      match assoc "id" o, assoc "title" o, assoc "author" o,
            assoc "year" o, assoc "status" o with
      | Some i, Some t, Some a, Some y, Some s =>
          if hashable i && status_ok s then Some (mkBook i t a y s) else None
      | _, _, _, _, _ => None
      end
  | _ => None
  end.

(** The elements of a file's array: the file is an object whose member
    [books] is an array (an empty object or an empty string in its place has
    no elements either). *)
Definition file_elements (fp : stream) : option (list pyval) :=
  match fp with
  | Parsed (PDict o) =>
      match assoc "books" o with
      | Some (PList items) => Some items
      | Some (PDict []) => Some []
      | Some (PStr EmptyString) => Some []
      | _ => None
      end
  | _ => None
  end.

(** The Books the elements describe, when each of them describes one. *)
Fixpoint all_books (items : list pyval) : option (list Book) :=
  match items with
  | [] => Some []
  | it :: r =>
      match book_of_item it, all_books r with
      | Some b, Some bs => Some (b :: bs)
      | _, _ => None
      end
  end.

(** The Books a file holds, in the file's order. *)
Definition file_books (fp : stream) : option (list Book) :=
  match file_elements fp with
  | Some items => all_books items
  | None => None
  end.

(** A Book satisfies the criteria: every criterion with a non-empty value is
    equal to the Book's attribute of that name. *)
Definition spec_matches (b : Book) (kw : kwargs) : bool :=
  forallb (fun fv => negb (truthy (snd fv))
                     || py_eq_str (getattr b (fst fv)) (snd fv)) kw.

(** The same said of one Book and the criteria alone, with no test of truth:
    each criterion either has the empty string as its value, or the Book's
    attribute of that name is a string equal to the value. *)
Definition satisfies (b : Book) (kw : kwargs) : bool :=
  forallb (fun fv =>
             match snd fv with
             | EmptyString => true
             | String _ _ =>
                 match getattr b (fst fv) with
                 | PStr s => String.eqb s (snd fv)
                 | _ => false
                 end
             end) kw.

(** A Book the data model admits: an id that can be hashed (a string is) and
    one of the two display strings as status. *)
Definition well_formed (b : Book) : Prop :=
  hashable (id b) = true /\ valid_status (status b).

(** One operation of the program on the state, whatever its outcome. *)
Inductive step (default_id : string) : state -> state -> Prop :=
| step_Book t a y i s st r st' :
    Book_init default_id t a y i s st = (r, st') -> step default_id st st'
| step_set_status self code st r st' :
    self < next st ->
    set_status self code st = (r, st') -> step default_id st st'
| step_add_book book st r st' :
    add_book book st = (r, st') -> step default_id st st'
| step_delete book st r st' :
    delete book st = (r, st') -> step default_id st st'
| step_load_data fp st r st' :
    load_data default_id fp st = (r, st') -> step default_id st st'
| step_Library st :
    step default_id st (Library_init st).

(** The states a run of the program goes through, from a start with no Book
    allocated. *)
Inductive reachable (default_id : string) : state -> Prop :=
| reach_start h : reachable default_id (mkState h 0 [])
| reach_step st st' :
    reachable default_id st -> step default_id st st' ->
    reachable default_id st'.

(** *** Concrete data for the examples *)

Definition book (i t a y s : string) : Book :=
  mkBook (PStr i) (PStr t) (PStr a) (PStr y) (PStr s).

Definition item (i t a y s : string) : pyval := Book_dict (book i t a y s).

Definition blank : Book := mkBook PNone PNone PNone PNone PNone.

(** No object allocated, an empty Library. *)
Definition start : state := mkState (fun _ => blank) 0 [].

(** A Library holding Books titled A, B, A. *)
Definition shelf : state :=
  push_all [book "1" "A" "X" "1990" "В наличии";
            book "2" "B" "Y" "1991" "Выдана";
            book "3" "A" "Z" "1992" "В наличии"] start.

(** A Library holding one Book, with a second, unshelved Book object whose
    attributes are the same. *)
Definition twins : state :=
  mkState (fun _ => book "1" "A" "X" "1990" "В наличии") 2 [0].

(** One Book constructed with the defaults, shelved, then checked out. *)
Definition lent : state :=
  snd (set_status 0 "0"
         (snd (add_book 0
                 (snd (Book_init "7" (PStr "Dune") (PStr "Herbert")
                         (PStr "1965") None None start))))).

(** The criteria of the console's search when every prompt is left empty. *)
Definition all_empty : kwargs := [(Ftitle, ""); (Fauthor, ""); (Fyear, "")].

(** A file whose two elements carry the same id. *)
Definition dup_file : stream :=
  Parsed (PDict [("books",
                  PList [item "1" "A" "X" "1990" "В наличии";
                         item "1" "B" "Y" "1991" "Выдана"])]).

(** ** The console handlers

    The functions under [if __name__ == '__main__'] that act on the Library.
    The console is a queue of the lines still to be typed, each as
    [input(...).strip()] returns it, and the sequence of what has been
    written: the prompts of [input] and the calls of [print].  A message is
    named by its key in [MESSAGES]; a Book that is printed is recorded with
    the attributes [__str__] reads at that moment. *)

Inductive message : Type :=
| AUTHOR_INPUT | BAD_STATUS | BOOK_ADDED | BOOK_NOT_FOUND | BOOK_DELETED
| FOUND | ID_INPUT | INTERRUPTED | NOT_FOUND | STATUS_SET | STATUS_INPUT
| TITLE_INPUT | YEAR_INPUT.

Inductive shown : Type :=
| Text (m : message)
| Obj (b : Book).

Inductive event : Type :=
| Prompt (m : message)
| Print (args : list shown).

Record console : Type := mkConsole {
  lib : state;
  stdin : list string;
  stdout : list event
}.

(** What can end a handler early: no line left to read, a method looked up
    on a list, or an exception of the Library. *)
Inductive halt : Type :=
| EOFError
| AttributeError
| Lib (e : exn).

Inductive run (A : Type) : Type :=
| Done (a : A)
| Halt (h : halt).
Arguments Done {A} a.
Arguments Halt {A} h.

Definition C (A : Type) : Type := console -> run A * console.

Definition cret {A : Type} (a : A) : C A := fun c => (Done a, c).

Definition cbind {A B : Type} (m : C A) (k : A -> C B) : C B :=
  fun c =>
    match m c with
    | (Done a, c') => k a c'
    | (Halt h, c') => (Halt h, c')
    end.

Definition halt_with {A : Type} (h : halt) : C A := fun c => (Halt h, c).

Declare Scope console_scope.
Notation "x <- m ;; k" := (cbind m (fun x => k))
  (at level 61, m at next level, right associativity) : console_scope.
Notation "m ;;; k" := (cbind m (fun _ => k))
  (at level 61, right associativity) : console_scope.

(** [input(MESSAGES[m]).strip()]: the prompt is written, then a line is
    read. *)
Definition input_strip (m : message) : C string :=
  fun c =>
    match stdin c with
    | [] => (Halt EOFError, mkConsole (lib c) [] (stdout c ++ [Prompt m]))
    | l :: r => (Done l, mkConsole (lib c) r (stdout c ++ [Prompt m]))
    end.

(** [print(...)] *)
Definition print (args : list shown) : C unit :=
  fun c => (Done tt, mkConsole (lib c) (stdin c) (stdout c ++ [Print args])).

(** A Book as an argument of [print]. *)
Definition show (book : addr) : C shown :=
  fun c => (Done (Obj (heap (lib c) book)), c).

(** A method of the Library or of a Book, called from a handler. *)
Definition call {A : Type} (m : M A) : C A :=
  fun c =>
    match m (lib c) with
    | (Ok a, st) => (Done a, mkConsole st (stdin c) (stdout c))
    | (Raise e, st) => (Halt (Lib e), mkConsole st (stdin c) (stdout c))
    end.

(** The same for a method that only reads the state. *)
Definition call_read {A : Type} (f : state -> outcome A) : C A :=
  call (fun st => (f st, st)).

(** [for x in l: body x] *)
Fixpoint cfor {A : Type} (l : list A) (body : A -> C unit) : C unit :=
  match l with
  | [] => cret tt
  | x :: r => cbind (body x) (fun _ => cfor r body)
  end.

(** [code in Book.BOOK_STATUSES] *)
Definition in_statuses (code : string) : bool :=
  match assoc code BOOK_STATUSES with
  | Some _ => true
  | None => false
  end.

(** The handlers keep their names, in a module of their own. *)
Module Console.

Local Open Scope console_scope.

Section Handlers.

Variable default_id : string.

(** [add(library)] *)
Definition add : C unit :=
  title <- input_strip TITLE_INPUT ;;
  author <- input_strip AUTHOR_INPUT ;;
  year <- input_strip YEAR_INPUT ;;
  book <- call (Book_init default_id (PStr title) (PStr author) (PStr year)
                  None None) ;;
  call (add_book book) ;;;
  b <- show book ;;
  print [Text BOOK_ADDED; b].

(** [delete(library)].  What [search] returned is tested for truth: a Book
    is true, a list is true unless empty; [self.books.remove] given a list
    finds no element equal to it. *)
Definition delete : C unit :=
  i <- input_strip ID_INPUT ;;
  if truthy i then
    book <- call_read (search [(Fid, i)]) ;;
    match book with
    | One a =>
        call (delete a) ;;;
        b <- show a ;;
        print [Text BOOK_DELETED; b]
    | Many (_ :: _) => halt_with (Lib ValueError)
    | Many [] => print [Text BOOK_NOT_FOUND]
    end
  else print [Text INTERRUPTED].

(** [list_(library)] *)
Definition list_ : C unit :=
  fun c => cfor (list_ (lib c)) (fun a => b <- show a ;; print [b]) c.

(** [status(library)].  A list has no [set_status]. *)
Definition status : C unit :=
  i <- input_strip ID_INPUT ;;
  if truthy i then
    book <- call_read (search [(Fid, i)]) ;;
    match book with
    | Many [] => print [Text BOOK_NOT_FOUND]
    | _ =>
        code <- input_strip STATUS_INPUT ;;
        if in_statuses code then
          match book with
          | One a =>
              call (set_status a code) ;;;
              b <- show a ;;
              print [Text STATUS_SET; b]
          | Many _ => halt_with AttributeError
          end
        else print [Text BAD_STATUS]
    end
  else print [Text INTERRUPTED].

(** [search(library)].  A Book cannot be iterated over. *)
Definition search : C unit :=
  title <- input_strip TITLE_INPUT ;;
  author <- input_strip AUTHOR_INPUT ;;
  year <- input_strip YEAR_INPUT ;;
  if truthy title || truthy author || truthy year then
    found <- call_read
               (search [(Ftitle, title); (Fauthor, author); (Fyear, year)]) ;;
    match found with
    | Many [] => print [Text NOT_FOUND]
    | Many l =>
        print [Text FOUND] ;;;
        cfor l (fun a => b <- show a ;; print [b])
    | One _ =>
        print [Text FOUND] ;;;
        halt_with (Lib TypeError)
    end
  else print [Text INTERRUPTED].

End Handlers.

End Console.

(** ** Vocabulary of the further properties *)

(** The exception the loop of [load_data] raises on an element that is not a
    Book, following the order in which the loop body reads the element. *)
Definition item_error (it : pyval) : exn :=
  match it with
  | PDict o =>
      match assoc "id" o with
      | None => KeyError "id"
      | Some i =>
          if hashable i then
            match assoc "title" o with
            | None => KeyError "title"
            | Some _ =>
                match assoc "author" o with
                | None => KeyError "author"
                | Some _ =>
                    match assoc "year" o with
                    | None => KeyError "year"
                    | Some _ =>
                        match assoc "status" o with
                        | None => KeyError "status"
                        | Some _ => ValueError
                        end
                    end
                end
            end
          else TypeError
      end
  | _ => TypeError
  end.

(** The Books of the elements up to the first one that is not a Book, and
    the exception that one raises, if there is one. *)
Fixpoint loaded (items : list pyval) : list Book * option exn :=
  match items with
  | [] => ([], None)
  | it :: r =>
      match book_of_item it with
      | Some b => let (bs, e) := loaded r in (b :: bs, e)
      | None => ([], Some (item_error it))
      end
  end.

(** What leaves [load_data] when the exception e is raised inside its
    [try]. *)
Definition escaped (e : exn) : exn :=
  match e with
  | JSONDecodeError | KeyError _ => TypeError
  | ValueError => SystemExit
  | _ => e
  end.

(** A file with three elements, the last without a title. *)
Definition torn_file : stream :=
  Parsed (PDict [("books",
                  PList [item "1" "A" "X" "1990" "В наличии";
                         item "2" "B" "Y" "1991" "Выдана";
                         PDict [("id", PStr "3")]])]).

(** A file whose second element has a status that is a code, not a display
    string. *)
Definition coded_file : stream :=
  Parsed (PDict [("books",
                  PList [item "1" "A" "X" "1990" "В наличии";
                         item "2" "B" "Y" "1991" "0"])]).

(** A handler ended well from the console c: it ran to its end, or it
    stopped because the input was exhausted, leaving the Library as it
    was. *)
Definition ends_well (r : run unit * console) (c : console) : Prop :=
  fst r = Done tt
  \/ (fst r = Halt EOFError /\ lib (snd r) = lib c /\ stdin (snd r) = []).

(** The Library after the file with two elements of the same id has been
    loaded. *)
Definition doubles : state := snd (load_data "7" dup_file start).

(** The Library states the program builds: from an empty start, by loads
    and by the handlers, whatever the files and whatever is typed. *)
Inductive built (default_id : string) : state -> Prop :=
| built_start h : built default_id (mkState h 0 [])
| built_load fp st :
    built default_id st -> built default_id (snd (load_data default_id fp st))
| built_add c :
    built default_id (lib c) ->
    built default_id (lib (snd (Console.add default_id c)))
| built_delete c :
    built default_id (lib c) ->
    built default_id (lib (snd (Console.delete c)))
| built_list c :
    built default_id (lib c) ->
    built default_id (lib (snd (Console.list_ c)))
| built_status c :
    built default_id (lib c) ->
    built default_id (lib (snd (Console.status c)))
| built_search c :
    built default_id (lib c) ->
    built default_id (lib (snd (Console.search c))).

(** Every Book of the list is an allocated object, and every allocated
    object is well formed. *)
Definition tidy (st : state) : Prop :=
  (forall a, In a (books st) -> a < next st)
  /\ (forall a, a < next st -> well_formed (heap st a)).

(** A session: a file is loaded, a Book is added, the first Book is checked
    out and then removed. *)
Definition session1 : console :=
  mkConsole (snd (load_data "7" dup_file start))
    ["Dune"; "Herbert"; "1965"] [].

Definition session2 : console :=
  mkConsole (lib (snd (Console.add "7" session1))) ["1"; "0"] [].

Definition session3 : console :=
  mkConsole (lib (snd (Console.status session2))) ["1"] [].

Definition session : state := lib (snd (Console.delete session3)).

(** * Properties *)

(** ** Helper lemmas *)

Lemma status_ok_valid (s : pyval) : status_ok s = true <-> valid_status s.
Proof.
  unfold status_ok, valid_status, status_values, BOOK_STATUSES. simpl.
  destruct s; simpl;
    try (split; [discriminate | intros [H | H]; discriminate]).
  rewrite orb_false_r, orb_true_iff, !String.eqb_eq.
  split.
  - intros [H | H]; subst; auto.
  - intros [H | H]; injection H; auto.
Qed.

Lemma status_ok_invalid (s : pyval) : status_ok s = false <-> ~ valid_status s.
Proof.
  destruct (status_ok s) eqn:E; split.
  - discriminate.
  - intro H. exfalso. apply H. now apply status_ok_valid.
  - intros _ H. apply status_ok_valid in H. congruence.
  - reflexivity.
Qed.

Lemma fold_left_andb (l : list bool) (x : bool) :
  fold_left andb l x = x && forallb (fun b => b) l.
Proof.
  revert x. induction l as [| y r IH]; intro x; simpl.
  - now rewrite andb_true_r.
  - rewrite IH. now rewrite andb_assoc.
Qed.

Lemma filter_none {A : Type} (f : A -> bool) (l : list A) :
  (forall x, In x l -> f x = false) -> filter f l = [].
Proof.
  induction l as [| x r IH]; simpl; intro H; [reflexivity |].
  rewrite (H x (or_introl eq_refl)). apply IH. intros y Hy. apply H. now right.
Qed.

Lemma reduce_andb_cons (x : bool) (l : list bool) :
  reduce andb (x :: l) = Some (forallb (fun b => b) (x :: l)).
Proof. simpl. now rewrite fold_left_andb. Qed.

(** ** Search *)

Lemma truthy_nonempty (v : string) : truthy v = true <-> v <> "".
Proof.
  unfold truthy. rewrite negb_true_iff, String.eqb_neq. tauto.
Qed.

Lemma conditions_all (b : Book) (kw : kwargs) :
  forallb (fun c => c) (conditions b kw) = spec_matches b kw.
Proof.
  unfold conditions, spec_matches.
  induction kw as [| [f v] r IH]; simpl; [reflexivity |].
  destruct (truthy v); simpl; now rewrite IH.
Qed.

Lemma spec_matches_true (b : Book) (kw : kwargs) :
  spec_matches b kw = true <->
  forall f v, In (f, v) kw -> v <> "" -> getattr b f = PStr v.
Proof.
  unfold spec_matches. rewrite forallb_forall. split.
  - intros H f v Hin Hv. specialize (H (f, v) Hin). simpl in H.
    apply truthy_nonempty in Hv. rewrite Hv in H. simpl in H.
    destruct (getattr b f); simpl in H; try discriminate.
    apply String.eqb_eq in H. now subst.
  - intros H [f v] Hin. simpl.
    destruct (truthy v) eqn:Ev; simpl; [| reflexivity].
    rewrite (H f v Hin); [| now apply truthy_nonempty].
    simpl. apply String.eqb_refl.
Qed.

Lemma some_criterion (kw : kwargs) :
  (exists f v, In (f, v) kw /\ v <> "") ->
  forall b, exists c cs, conditions b kw = c :: cs.
Proof.
  intros (f & v & Hin & Hv) b. unfold conditions.
  assert (Hf : In (f, v) (filter (fun fv => truthy (snd fv)) kw)).
  { apply filter_In. split; [assumption |]. now apply truthy_nonempty. }
  destruct (filter (fun fv => truthy (snd fv)) kw) as [| x xs];
    [contradiction | simpl; eauto].
Qed.

Lemma no_criterion (kw : kwargs) :
  (forall f v, In (f, v) kw -> v = "") ->
  forall b, conditions b kw = [].
Proof.
  intros H b. unfold conditions.
  induction kw as [| [f v] r IH]; simpl; [reflexivity |].
  rewrite (H f v (or_introl eq_refl)). simpl.
  apply IH. intros g w Hin. apply (H g w). now right.
Qed.

Lemma scan_all_filter (h : addr -> Book) (kw : kwargs) :
  (exists f v, In (f, v) kw /\ v <> "") ->
  forall l found,
    scan_all h kw l found
    = Ok (found ++ filter (fun a => spec_matches (h a) kw) l).
Proof.
  intros Hkw. induction l as [| a r IH]; intro found; simpl.
  - now rewrite app_nil_r.
  - destruct (some_criterion kw Hkw (h a)) as (c & cs & E).
    rewrite E, reduce_andb_cons, <- E, conditions_all.
    destruct (spec_matches (h a) kw).
    + rewrite IH, <- app_assoc. reflexivity.
    + apply IH.
Qed.

Lemma scan_all_no_criterion (h : addr -> Book) (kw : kwargs) :
  (forall f v, In (f, v) kw -> v = "") ->
  forall l found,
    scan_all h kw l found
    = match l with [] => Ok found | _ :: _ => Raise TypeError end.
Proof.
  intros Hkw [| a r] found; simpl; [reflexivity |].
  now rewrite (no_criterion kw Hkw).
Qed.

Lemma kw_id_In (kw : kwargs) (v : string) :
  kw_id kw = Some v -> In (Fid, v) kw.
Proof.
  induction kw as [| [f w] r IH]; simpl; [discriminate |].
  destruct f; simpl; intro H; try (right; now apply IH).
  left. congruence.
Qed.

Lemma scan_id_first (h : addr -> Book) (v : string) (l : list addr) :
  match scan_id h v l with
  | Some a =>
      exists l1 l2, l = l1 ++ a :: l2 /\ id (h a) = PStr v /\
                    forall x, In x l1 -> id (h x) <> PStr v
  | None => forall x, In x l -> id (h x) <> PStr v
  end.
Proof.
  induction l as [| a r IH]; simpl.
  - intros x [].
  - destruct (py_eq_str (id (h a)) v) eqn:E.
    + exists [], r. repeat split.
      * destruct (id (h a)); simpl in E; try discriminate.
        apply String.eqb_eq in E. now subst.
      * intros x [].
    + assert (Ha : id (h a) <> PStr v).
      { intro Heq. rewrite Heq in E. simpl in E.
        now rewrite String.eqb_refl in E. }
      destruct (scan_id h v r) as [a' |].
      * destruct IH as (l1 & l2 & -> & Hid & Hl1).
        exists (a :: l1), l2. repeat split; [assumption |].
        intros x [<- | Hx]; auto.
      * intros x [<- | Hx]; auto.
Qed.

(** With an id among the criteria, the first Book carrying it is returned,
    whatever the other criteria are. *)
Lemma search_id_found (kw : kwargs) (v : string) (st : state) (a : addr) :
  kw_id kw = Some v ->
  scan_id (heap st) v (books st) = Some a ->
  search kw st = Ok (One a).
Proof. intros Hk Hs. unfold search. now rewrite Hk, Hs. Qed.

(** With a non-empty id that no Book carries, the second loop runs with the
    id among its conditions and finds nothing. *)
Lemma search_id_absent (kw : kwargs) (v : string) (st : state) :
  kw_id kw = Some v -> v <> "" ->
  (forall a, In a (books st) -> id (heap st a) <> PStr v) ->
  search kw st = Ok (Many []).
Proof.
  intros Hk Hv Hno. unfold search. rewrite Hk.
  pose proof (scan_id_first (heap st) v (books st)) as Hs.
  destruct (scan_id (heap st) v (books st)) as [a |].
  - destruct Hs as (l1 & l2 & Hl & Hid & _). exfalso.
    apply (Hno a); [| assumption]. rewrite Hl. apply in_or_app. right. now left.
  - rewrite scan_all_filter.
    + simpl. rewrite filter_none; [reflexivity |].
      intros a Ha.
      destruct (spec_matches (heap st a) kw) eqn:E; [| reflexivity].
      exfalso. apply (Hno a Ha).
      apply (proj1 (spec_matches_true _ _) E Fid v); [| assumption].
      now apply kw_id_In.
    + exists Fid, v. split; [now apply kw_id_In | assumption].
Qed.

(** C1, as amended.  A search with no id among its criteria and every other
    criterion empty or absent returns the empty list when the Library holds
    no Book; when it holds at least one, [reduce] is applied to an empty
    sequence for the first Book and the call ends in a TypeError: no Book is
    returned. *)
Theorem search_no_criteria (kw : kwargs) (st : state) :
  kw_id kw = None ->
  (forall f v, In (f, v) kw -> v = "") ->
  search kw st
  = match books st with
    | [] => Ok (Many [])
    | _ :: _ => Raise TypeError
    end.
Proof.
  intros Hk Hkw. unfold search. rewrite Hk.
  rewrite (scan_all_no_criterion _ kw Hkw).
  now destruct (books st).
Qed.

Lemma search_no_criteria_witness :
  search all_empty start = Ok (Many [])
  /\ search all_empty shelf = Raise TypeError.
Proof.
  assert (H : forall f v, In (f, v) all_empty -> v = "").
  { intros f v [E | [E | [E | []]]]; now inversion E. }
  split.
  - exact (search_no_criteria all_empty start eq_refl H).
  - exact (search_no_criteria all_empty shelf eq_refl H).
Defined.

(** C1 as stated fails: on a Library of three Books, a search with no
    criterion, or with every criterion empty, does not return the Books. *)
Lemma search_no_criteria_counterexample :
  books shelf = [0; 1; 2]
  /\ search [] shelf = Raise TypeError
  /\ search all_empty shelf = Raise TypeError
  /\ search [] shelf <> Ok (Many (books shelf)).
Proof. repeat split; try reflexivity. discriminate. Qed.

Lemma satisfies_spec_matches (b : Book) (kw : kwargs) :
  satisfies b kw = spec_matches b kw.
Proof.
  unfold satisfies, spec_matches.
  induction kw as [| [f v] r IH]; simpl; [reflexivity |].
  rewrite IH. destruct v as [| c v']; [reflexivity |].
  simpl. now destruct (getattr b f).
Qed.

Lemma satisfies_true (b : Book) (kw : kwargs) :
  satisfies b kw = true <->
  forall f v, In (f, v) kw -> v <> "" -> getattr b f = PStr v.
Proof. rewrite satisfies_spec_matches. apply spec_matches_true. Qed.

(** C7.  A search with no id among its criteria and at least one non-empty
    criterion returns exactly the Books for which every criterion with a
    non-empty value equals the attribute of that name, an empty criterion
    constraining nothing ([satisfies]), in the order of the Library. *)
Theorem search_filters (kw : kwargs) (st : state) :
  kw_id kw = None ->
  (exists f v, In (f, v) kw /\ v <> "") ->
  exists found,
    search kw st = Ok (Many found)
    /\ found = filter (fun a => satisfies (heap st a) kw) (books st)
    /\ forall a,
        In a found <->
        In a (books st)
        /\ forall f v, In (f, v) kw -> v <> "" ->
                       getattr (heap st a) f = PStr v.
Proof.
  intros Hk Hkw.
  exists (filter (fun a => satisfies (heap st a) kw) (books st)).
  split; [| split; [reflexivity |]].
  - unfold search. rewrite Hk, (scan_all_filter _ kw Hkw). simpl.
    do 2 f_equal. apply filter_ext. intro a.
    symmetry. apply satisfies_spec_matches.
  - intro a. rewrite filter_In, satisfies_true. tauto.
Qed.

Lemma search_filters_witness :
  map (fun a => (title (heap shelf a), year (heap shelf a))) (books shelf)
  = [(PStr "A", PStr "1990"); (PStr "B", PStr "1991");
     (PStr "A", PStr "1992")]
  /\ search [(Ftitle, "A")] shelf = Ok (Many [0; 2])
  /\ search [(Ftitle, "A"); (Fauthor, "")] shelf = Ok (Many [0; 2])
  /\ search [(Ftitle, "A"); (Fauthor, ""); (Fyear, "1992")] shelf
     = Ok (Many [2])
  /\ search [(Ftitle, "A"); (Fyear, "1991")] shelf = Ok (Many []).
Proof.
  assert (Hkw : forall r, exists f v,
               In (f, v) ((Ftitle, "A") :: r) /\ v <> "").
  { intro r. exists Ftitle, "A". split; [now left | discriminate]. }
  split; [reflexivity |]. split; [| split; [| split]].
  - destruct (search_filters [(Ftitle, "A")] shelf eq_refl (Hkw _))
      as (found & Hs & Hf & _).
    rewrite Hs, Hf. reflexivity.
  - destruct (search_filters [(Ftitle, "A"); (Fauthor, "")] shelf eq_refl
                (Hkw _)) as (found & Hs & Hf & _).
    rewrite Hs, Hf. reflexivity.
  - destruct (search_filters [(Ftitle, "A"); (Fauthor, ""); (Fyear, "1992")]
                shelf eq_refl (Hkw _)) as (found & Hs & Hf & _).
    rewrite Hs, Hf. reflexivity.
  - destruct (search_filters [(Ftitle, "A"); (Fyear, "1991")] shelf eq_refl
                (Hkw _)) as (found & Hs & Hf & _).
    rewrite Hs, Hf. reflexivity.
Defined.

(** C6 fails on the code: with an empty id that no Book carries, the search
    falls through to the second loop, where the other criteria select
    Books. *)
Theorem search_id_falls_through :
  kw_id [(Fid, ""); (Ftitle, "A")] = Some ""
  /\ (forall a, In a (books shelf) -> id (heap shelf a) <> PStr "")
  /\ search [(Fid, ""); (Ftitle, "A")] shelf = Ok (Many [0; 2])
  /\ search [(Fid, "")] shelf = Raise TypeError.
Proof.
  repeat split.
  intros a [<- | [<- | [<- | []]]]; discriminate.
Qed.

(** ** Adding and removing *)

(** C9.  [add_book] always succeeds and puts the Book at the end of the
    list, whether or not the Book or its id is already there; [list]
    afterwards returns the former list followed by the new Book.  The
    objects themselves are untouched. *)
Theorem add_book_appends (b : addr) (st : state) :
  exists st',
    add_book b st = (Ok tt, st')
    /\ list_ st' = list_ st ++ [b]
    /\ heap st' = heap st
    /\ next st' = next st.
Proof. eexists. repeat split. Qed.

Lemma list_remove_first (x : addr) (l : list addr) :
  match list_remove x l with
  | Some l' => exists l1 l2, l = l1 ++ x :: l2 /\ ~ In x l1 /\ l' = l1 ++ l2
  | None => ~ In x l
  end.
Proof.
  induction l as [| y r IH]; simpl.
  - tauto.
  - destruct (Nat.eqb y x) eqn:E.
    + apply Nat.eqb_eq in E. subst. exists [], r. simpl. tauto.
    + apply Nat.eqb_neq in E.
      destruct (list_remove x r) as [r' |].
      * destruct IH as (l1 & l2 & -> & Hno & ->).
        exists (y :: l1), l2. repeat split. intros [H | H]; auto.
      * intros [H | H]; auto.
Qed.

(** C8, as amended.  [delete] removes the first occurrence of the very
    object it is given (Book has no equality of its own, so the list
    compares references); when that object is not in the list it raises
    ValueError and leaves the state as it was. *)
Theorem delete_by_identity (b : addr) (st : state) :
  (In b (books st) ->
   exists l1 l2,
     books st = l1 ++ b :: l2 /\ ~ In b l1
     /\ delete b st = (Ok tt, mkState (heap st) (next st) (l1 ++ l2)))
  /\ (~ In b (books st) -> delete b st = (Raise ValueError, st)).
Proof.
  unfold delete. pose proof (list_remove_first b (books st)) as H.
  destruct (list_remove b (books st)) as [l' |].
  - destruct H as (l1 & l2 & E & Hno & ->). split.
    + intros _. exists l1, l2. auto.
    + intro Hn. exfalso. apply Hn. rewrite E. apply in_or_app. right. now left.
  - split; [contradiction | reflexivity].
Qed.

Lemma delete_by_identity_witness :
  (exists l1 l2,
     books shelf = l1 ++ 1 :: l2 /\ ~ In 1 l1
     /\ delete 1 shelf
        = (Ok tt, mkState (heap shelf) (next shelf) (l1 ++ l2)))
  /\ delete 1 twins = (Raise ValueError, twins).
Proof.
  split.
  - apply (proj1 (delete_by_identity 1 shelf)). simpl. auto.
  - apply (proj2 (delete_by_identity 1 twins)). simpl. intros [H | []].
    discriminate.
Defined.

(** C8 as stated fails: a Book object with the same attributes as the one
    on the shelf, but another object, is not removed. *)
Lemma delete_equal_fields_counterexample :
  books twins = [0]
  /\ heap twins 1 = heap twins 0
  /\ delete 1 twins = (Raise ValueError, twins).
Proof. repeat split. Qed.

(** ** Construction *)

(** C3 fails on the code: two Books constructed with the id left out are
    two objects with the same id, the one default of the process. *)
Theorem default_id_shared (default_id : string)
  (t1 a1 y1 t2 a2 y2 : pyval) (st : state) :
  exists r1 st1 r2 st2,
    Book_init default_id t1 a1 y1 None None st = (Ok r1, st1)
    /\ Book_init default_id t2 a2 y2 None None st1 = (Ok r2, st2)
    /\ r1 <> r2
    /\ id (heap st2 r1) = PStr default_id
    /\ id (heap st2 r2) = PStr default_id.
Proof.
  exists (next st). eexists. exists (S (next st)). eexists.
  split; [reflexivity |]. split; [reflexivity |].
  split; [lia |]. simpl. unfold upd.
  rewrite Nat.eqb_refl.
  destruct (Nat.eqb (next st) (S (next st))) eqn:E.
  - apply Nat.eqb_eq in E. lia.
  - rewrite Nat.eqb_refl. auto.
Qed.

(** ** Loading and saving *)

Lemma load_book_ok (default_id : string) (it : pyval) (b : Book) (st : state) :
  book_of_item it = Some b ->
  load_book default_id [] it st = (Ok tt, push b st).
Proof.
  unfold book_of_item, load_book, bind, lift, getitem.
  destruct it as [| | | | | | o]; try discriminate.
  destruct (assoc "id" o) as [i |]; [| discriminate].
  destruct (assoc "title" o) as [t |]; [| discriminate].
  destruct (assoc "author" o) as [a |]; [| discriminate].
  destruct (assoc "year" o) as [y |]; [| discriminate].
  destruct (assoc "status" o) as [s |]; [| discriminate].
  unfold dict_contains.
  destruct (hashable i); simpl; [| discriminate].
  destruct (status_ok s) eqn:Es; [| discriminate].
  intro H. injection H as <-.
  assert (Hd : match i with PStr _ => false | _ => false end = false)
    by now destruct i.
  rewrite Hd. unfold Book_init, add_book. simpl. rewrite Es. reflexivity.
Qed.

Lemma load_book_fail (default_id : string) (it : pyval) (st : state) :
  book_of_item it = None ->
  exists e, load_book default_id [] it st = (Raise e, st).
Proof.
  unfold book_of_item, load_book, bind, lift, getitem.
  destruct it as [| | | | | | o]; try (intros _; eexists; reflexivity).
  destruct (assoc "id" o) as [i |]; [| intros _; eexists; reflexivity].
  unfold dict_contains.
  destruct (hashable i); simpl; [| intros _; eexists; reflexivity].
  assert (Hd : match i with PStr _ => false | _ => false end = false)
    by now destruct i.
  rewrite Hd.
  destruct (assoc "title" o) as [t |]; [| intros _; eexists; reflexivity].
  destruct (assoc "author" o) as [a |]; [| intros _; eexists; reflexivity].
  destruct (assoc "year" o) as [y |]; [| intros _; eexists; reflexivity].
  destruct (assoc "status" o) as [s |]; [| intros _; eexists; reflexivity].
  unfold Book_init. simpl.
  destruct (status_ok s); [discriminate | intros _; eexists; reflexivity].
Qed.

(** The loop of [load_data] stops at the first element that is not a Book,
    with the Books before it already appended. *)
Lemma for_each_load (default_id : string) (items : list pyval) (st : state) :
  (exists bs,
      Forall2 (fun it b => book_of_item it = Some b) items bs
      /\ for_each items (load_book default_id []) st = (Ok tt, push_all bs st))
  \/ (exists bs e n,
         n < List.length items
         /\ Forall2 (fun it b => book_of_item it = Some b) (firstn n items) bs
         /\ for_each items (load_book default_id []) st
            = (Raise e, push_all bs st)).
Proof.
  revert st. induction items as [| it r IH]; intro st.
  - left. exists []. split; [constructor | reflexivity].
  - simpl. unfold bind.
    destruct (book_of_item it) as [b |] eqn:Eb.
    + rewrite (load_book_ok default_id it b st Eb).
      destruct (IH (push b st)) as [(bs & HF & E) | (bs & e & n & Hn & HF & E)].
      * left. exists (b :: bs). split; [now constructor | exact E].
      * right. exists (b :: bs), e, (S n). simpl.
        split; [lia |]. split; [now constructor | exact E].
    + destruct (load_book_fail default_id it st Eb) as (e & E). rewrite E.
      right. exists [], e, 0. simpl. split; [lia |]. split; [constructor |].
      reflexivity.
Qed.

Lemma push_all_next (bs : list Book) (st : state) :
  next (push_all bs st) = next st + List.length bs.
Proof.
  revert st. induction bs as [| b r IH]; intro st; simpl; [lia |].
  unfold push_all in IH. rewrite IH. simpl. lia.
Qed.

Lemma push_all_books (bs : list Book) (st : state) :
  books (push_all bs st) = books st ++ seq (next st) (List.length bs).
Proof.
  revert st. induction bs as [| b r IH]; intro st; simpl.
  - now rewrite app_nil_r.
  - unfold push_all in IH. rewrite IH. simpl. now rewrite <- app_assoc.
Qed.

Lemma push_all_old (bs : list Book) (st : state) (a : addr) :
  a < next st -> heap (push_all bs st) a = heap st a.
Proof.
  revert st. induction bs as [| b r IH]; intros st Ha; simpl; [reflexivity |].
  unfold push_all in IH. rewrite IH; simpl; [| lia].
  unfold upd. destruct (Nat.eqb a (next st)) eqn:E; [| reflexivity].
  apply Nat.eqb_eq in E. lia.
Qed.

Lemma push_all_new (bs : list Book) (st : state) :
  map (heap (push_all bs st)) (seq (next st) (List.length bs)) = bs.
Proof.
  revert st. induction bs as [| b r IH]; intro st; simpl; [reflexivity |].
  unfold push_all in IH. f_equal.
  - fold (push_all r (push b st)). rewrite push_all_old; simpl; [| lia].
    unfold upd. now rewrite Nat.eqb_refl.
  - apply (IH (push b st)).
Qed.

Lemma push_all_status (bs : list Book) (st : state) :
  Forall (fun b => valid_status (status b)) bs ->
  status_inv st -> status_inv (push_all bs st).
Proof.
  revert st. induction bs as [| b r IH]; intros st Hbs Hst; simpl;
    [assumption |].
  inversion Hbs as [| ? ? Hb Hr]; subst.
  apply IH; [assumption |].
  intros a Ha. simpl in *. unfold upd.
  destruct (Nat.eqb a (next st)) eqn:E; [assumption |].
  apply Nat.eqb_neq in E. apply Hst. lia.
Qed.

Lemma book_of_item_status (it : pyval) (b : Book) :
  book_of_item it = Some b -> valid_status (status b).
Proof.
  unfold book_of_item. destruct it as [| | | | | | o]; try discriminate.
  destruct (assoc "id" o) as [i |]; [| discriminate].
  destruct (assoc "title" o); [| discriminate].
  destruct (assoc "author" o); [| discriminate].
  destruct (assoc "year" o); [| discriminate].
  destruct (assoc "status" o) as [s |]; [| discriminate].
  destruct (hashable i); simpl; [| discriminate].
  destruct (status_ok s) eqn:Es; [| discriminate].
  intro H. injection H as <-. simpl. now apply status_ok_valid.
Qed.

Lemma book_of_item_dict (b : Book) :
  hashable (id b) = true -> valid_status (status b) ->
  book_of_item (Book_dict b) = Some b.
Proof.
  intros Hh Hs. apply status_ok_valid in Hs.
  destruct b as [i t a y s]. simpl in *. now rewrite Hh, Hs.
Qed.

Lemma items_status (items : list pyval) (bs : list Book) :
  Forall2 (fun it b => book_of_item it = Some b) items bs ->
  Forall (fun b => valid_status (status b)) bs.
Proof.
  induction 1 as [| it b r bs' Hb _ IH]; constructor; [| assumption].
  exact (book_of_item_status it b Hb).
Qed.

Lemma for_each_load_ok (default_id : string)
  (items : list pyval) (bs : list Book) :
  Forall2 (fun it b => book_of_item it = Some b) items bs ->
  forall st,
    for_each items (load_book default_id []) st = (Ok tt, push_all bs st).
Proof.
  induction 1 as [| it b r bs' Hb _ IH]; intro st; [reflexivity |].
  simpl. unfold bind. rewrite (load_book_ok default_id it b st Hb).
  apply IH.
Qed.

(** A load that succeeds is determined by the file alone. *)
Lemma load_data_ok_intro (default_id : string)
  (doc data : pyval) (items : list pyval) (bs : list Book) (st : state) :
  getitem doc "books" = Ok data ->
  iter data = Ok items ->
  Forall2 (fun it b => book_of_item it = Some b) items bs ->
  load_data default_id (Parsed doc) st = (Ok tt, push_all bs st).
Proof.
  intros Hd Hi HF. unfold load_data, try_except, bind, lift. simpl.
  rewrite Hd, Hi. now rewrite (for_each_load_ok default_id items bs HF).
Qed.

Lemma load_data_ok_elim (default_id : string) (fp : stream) (st st' : state) :
  load_data default_id fp st = (Ok tt, st') ->
  exists doc data items bs,
    fp = Parsed doc
    /\ getitem doc "books" = Ok data
    /\ iter data = Ok items
    /\ Forall2 (fun it b => book_of_item it = Some b) items bs
    /\ st' = push_all bs st.
Proof.
  unfold load_data, try_except, bind, lift.
  destruct fp as [| doc | e]; simpl.
  { unfold exit2, raise. discriminate. }
  2: { destruct e; unfold exit1, exit2, raise; discriminate. }
  destruct (getitem doc "books") as [data | e] eqn:Hd.
  - destruct (iter data) as [items | e] eqn:Hi.
    + destruct (for_each_load default_id items st)
        as [(bs & HF & E) | (bs & e & n & _ & _ & E)]; rewrite E.
      * intro H. injection H as <-. exists doc, data, items, bs. auto.
      * destruct e; unfold exit1, exit2, raise; discriminate.
    + destruct e; unfold exit1, exit2, raise; discriminate.
  - destruct e; unfold exit1, exit2, raise; discriminate.
Qed.

(** Whatever its outcome, a load has constructed and appended some Books,
    each with a valid status, and done nothing else to the state. *)
Lemma load_data_state (default_id : string) (fp : stream) (st : state) :
  exists bs,
    Forall (fun b => valid_status (status b)) bs
    /\ snd (load_data default_id fp st) = push_all bs st.
Proof.
  unfold load_data, try_except, bind, lift.
  destruct fp as [| doc | e]; simpl.
  { exists []. split; [constructor | reflexivity]. }
  2: { exists []. split; [constructor | destruct e; reflexivity]. }
  destruct (getitem doc "books") as [data | e].
  - destruct (iter data) as [items | e].
    + destruct (for_each_load default_id items st)
        as [(bs & HF & E) | (bs & e & n & _ & HF & E)]; rewrite E.
      * exists bs. split; [exact (items_status _ _ HF) | reflexivity].
      * exists bs. split; [exact (items_status _ _ HF) |].
        destruct e; reflexivity.
    + exists []. split; [constructor | destruct e; reflexivity].
  - exists []. split; [constructor | destruct e; reflexivity].
Qed.

(** C2 fails on the code: a file whose two elements carry the same id is
    loaded to the end, and the Library then holds two Books with that id.
    The dict the method consults for duplicates is never added to. *)
Theorem load_data_duplicate_id (default_id : string) :
  exists st',
    load_data default_id dup_file start = (Ok tt, st')
    /\ books st' = [0; 1]
    /\ id (heap st' 0) = PStr "1"
    /\ id (heap st' 1) = PStr "1".
Proof. eexists. repeat split. Qed.

Lemma all_books_items (items : list pyval) (bs : list Book) :
  Forall2 (fun it b => book_of_item it = Some b) items bs ->
  all_books items = Some bs.
Proof.
  induction 1 as [| it b r bs' Hb _ IH]; simpl; [reflexivity |].
  now rewrite Hb, IH.
Qed.

Lemma chars_nonempty (c : ascii) (r : string) : chars (String c r) <> [].
Proof.
  simpl. destruct (chars r) as [| x xs]; [discriminate |].
  destruct r as [| c' r']; [discriminate |].
  destruct (utf8_cont c'); discriminate.
Qed.

Lemma file_books_loaded (doc data : pyval) (items : list pyval)
  (bs : list Book) :
  getitem doc "books" = Ok data ->
  iter data = Ok items ->
  Forall2 (fun it b => book_of_item it = Some b) items bs ->
  file_books (Parsed doc) = Some bs.
Proof.
  unfold file_books, file_elements, getitem.
  destruct doc as [| | | | | | o]; try discriminate.
  destruct (assoc "books" o) as [data' |]; [| discriminate].
  intro H. injection H as ->.
  destruct data as [| | | | s | l | d]; try discriminate; simpl;
    intro H; injection H as <-; intro HF.
  - destruct s as [| c r]; [now inversion HF |].
    exfalso. pose proof (chars_nonempty c r) as Hne.
    destruct (chars (String c r)) as [| x xs]; [congruence |].
    inversion HF as [| ? ? ? ? Hb]. discriminate.
  - now apply all_books_items.
  - destruct d as [| kv d']; [now inversion HF |].
    exfalso. inversion HF as [| ? ? ? ? Hb]. discriminate.
Qed.

(** C10.  A load that succeeds keeps the Books the Library held, in place and
    unchanged, and appends after them one new Book per element of the file's
    array ([file_books]), in the file's order, with the element's values;
    loading the same file again succeeds and appends the same Books once
    more. *)
Theorem load_data_appends (default_id : string) (fp : stream)
  (st st' : state) :
  load_data default_id fp st = (Ok tt, st') ->
  exists bs,
    file_books fp = Some bs
    /\ books st' = books st ++ seq (next st) (List.length bs)
    /\ map (heap st') (seq (next st) (List.length bs)) = bs
    /\ (forall a, a < next st -> heap st' a = heap st a)
    /\ exists st'',
        load_data default_id fp st' = (Ok tt, st'')
        /\ books st''
           = books st ++ seq (next st) (List.length bs)
                      ++ seq (next st') (List.length bs)
        /\ map (heap st'') (seq (next st) (List.length bs)) = bs
        /\ map (heap st'') (seq (next st') (List.length bs)) = bs.
Proof.
  intro H.
  destruct (load_data_ok_elim default_id fp st st' H)
    as (doc & data & items & bs & -> & Hd & Hi & HF & ->).
  exists bs.
  split; [exact (file_books_loaded doc data items bs Hd Hi HF) |].
  split; [apply push_all_books |].
  split; [apply push_all_new |].
  split; [intros a Ha; now apply push_all_old |].
  exists (push_all bs (push_all bs st)).
  split; [exact (load_data_ok_intro default_id doc data items bs _ Hd Hi HF) |].
  split; [now rewrite !push_all_books, <- app_assoc |].
  split; [| apply push_all_new].
  transitivity (map (heap (push_all bs st)) (seq (next st) (List.length bs)));
    [| apply push_all_new].
  apply map_ext_in. intros a Ha. apply in_seq in Ha.
  apply push_all_old. rewrite push_all_next. lia.
Qed.

Lemma load_data_appends_witness :
  file_books dup_file
  = Some [book "1" "A" "X" "1990" "В наличии";
          book "1" "B" "Y" "1991" "Выдана"]
  /\ books (snd (load_data "7" dup_file shelf)) = [0; 1; 2; 3; 4]
  /\ map (heap (snd (load_data "7" dup_file shelf))) [3; 4]
     = [book "1" "A" "X" "1990" "В наличии";
        book "1" "B" "Y" "1991" "Выдана"]
  /\ (forall a, a < 3 ->
                heap (snd (load_data "7" dup_file shelf)) a = heap shelf a)
  /\ exists st'',
      load_data "7" dup_file (snd (load_data "7" dup_file shelf))
      = (Ok tt, st'')
      /\ books st'' = [0; 1; 2; 3; 4; 5; 6]
      /\ map (heap st'') [3; 4]
         = [book "1" "A" "X" "1990" "В наличии";
            book "1" "B" "Y" "1991" "Выдана"]
      /\ map (heap st'') [5; 6]
         = [book "1" "A" "X" "1990" "В наличии";
            book "1" "B" "Y" "1991" "Выдана"].
Proof.
  destruct (load_data_appends "7" dup_file shelf
              (snd (load_data "7" dup_file shelf)) eq_refl)
    as (bs & Hfb & Hb & Hm & Hfr & st'' & H2 & Hb2 & Hm1 & Hm2).
  change (Some [book "1" "A" "X" "1990" "В наличии";
                book "1" "B" "Y" "1991" "Выдана"] = Some bs) in Hfb.
  injection Hfb as <-.
  split; [reflexivity |]. split; [exact Hb |]. split; [exact Hm |].
  split; [exact Hfr |].
  exists st''. split; [exact H2 |]. split; [exact Hb2 |].
  split; [exact Hm1 | exact Hm2].
Defined.

Lemma dumped_items (st : state) :
  Forall (fun a => well_formed (heap st a)) (books st) ->
  Forall2 (fun it b => book_of_item it = Some b)
    (map (fun a => Book_dict (heap st a)) (books st))
    (map (heap st) (books st)).
Proof.
  induction 1 as [| a r [Hh Hs] _ IH]; simpl; constructor; [| assumption].
  now apply book_of_item_dict.
Qed.

(** C5.  Saving a Library whose Books are well formed and have pairwise
    distinct ids, and loading what was written into a new, empty Library,
    succeeds and yields Books equal to the originals attribute by attribute,
    in the same order. *)
Theorem save_load_roundtrip (default_id : string) (st : state) :
  Forall (fun a => well_formed (heap st a)) (books st) ->
  NoDup (map (fun a => id (heap st a)) (books st)) ->
  exists st',
    load_data default_id (save st) (Library_init st) = (Ok tt, st')
    /\ map (heap st') (books st') = map (heap st) (books st).
Proof.
  intros Hwf _.
  exists (push_all (map (heap st) (books st)) (Library_init st)).
  split.
  - apply (load_data_ok_intro default_id (dumped st)
             (PList (map (fun a => Book_dict (heap st a)) (books st)))
             (map (fun a => Book_dict (heap st a)) (books st)));
      [reflexivity | reflexivity | now apply dumped_items].
  - rewrite push_all_books. simpl.
    exact (push_all_new (map (heap st) (books st)) (Library_init st)).
Qed.

Lemma save_load_roundtrip_witness :
  exists st',
    load_data "7" (save shelf) (Library_init shelf) = (Ok tt, st')
    /\ map (heap st') (books st') = map (heap shelf) (books shelf).
Proof.
  apply (save_load_roundtrip "7" shelf).
  - repeat (constructor;
            [split; [reflexivity
                    | first [left; reflexivity | right; reflexivity]] |]).
    constructor.
  - simpl. repeat constructor; simpl; intuition discriminate.
Defined.

(** ** The status invariant *)

Lemma Book_init_status (default_id : string) (t a y : pyval)
  (i s : option pyval) (st : state) :
  status_inv st -> status_inv (snd (Book_init default_id t a y i s st)).
Proof.
  intro Hst. unfold Book_init.
  destruct (status_ok _) eqn:Es; simpl; [| assumption].
  apply status_ok_valid in Es.
  intros x Hx. simpl in *. unfold upd.
  destruct (Nat.eqb x (next st)) eqn:E; [exact Es |].
  apply Nat.eqb_neq in E. apply Hst. lia.
Qed.

Lemma status_label (code label : string) :
  assoc code BOOK_STATUSES = Some label -> valid_status (PStr label).
Proof.
  unfold BOOK_STATUSES. cbn [assoc].
  destruct (String.eqb "0" code); [intro H; injection H as <-; now right |].
  destruct (String.eqb "1" code); [intro H; injection H as <-; now left |].
  discriminate.
Qed.

Lemma set_status_status (self : addr) (code : string) (st : state) :
  status_inv st -> status_inv (snd (set_status self code st)).
Proof.
  intro Hst. unfold set_status.
  destruct (assoc code BOOK_STATUSES) as [label |] eqn:El; simpl;
    [| assumption].
  pose proof (status_label code label El) as Hl.
  intros x Hx. simpl in *. unfold upd.
  destruct (Nat.eqb x self); [exact Hl | now apply Hst].
Qed.

Lemma step_status (default_id : string) (st st' : state) :
  step default_id st st' -> status_inv st -> status_inv st'.
Proof.
  intros Hstep Hst.
  destruct Hstep as [t a y i s st r st' E | self code st r st' _ E
                    | b st r st' E | b st r st' E | fp st r st' E | st].
  - replace st' with (snd (Book_init default_id t a y i s st))
      by now rewrite E.
    now apply Book_init_status.
  - replace st' with (snd (set_status self code st)) by now rewrite E.
    now apply set_status_status.
  - unfold add_book in E. injection E as _ <-. exact Hst.
  - unfold delete in E. destruct (list_remove b (books st));
      injection E as _ <-; exact Hst.
  - destruct (load_data_state default_id fp st) as (bs & Hbs & Hs).
    rewrite E in Hs. simpl in Hs. subst st'.
    now apply push_all_status.
  - exact Hst.
Qed.

(** C4.  Constructing a Book with a status other than the two display
    strings raises ValueError; constructing it with the status left out
    gives it the status "В наличии"; and in every state the program reaches,
    by constructions, status changes, additions, removals and loads, every
    Book object has one of the two display strings as its status. *)
Theorem status_always_valid (default_id : string) :
  (forall t a y i s st,
      ~ valid_status s ->
      Book_init default_id t a y i (Some s) st = (Raise ValueError, st))
  /\ (forall t a y i st,
         exists r st',
           Book_init default_id t a y i None st = (Ok r, st')
           /\ status (heap st' r) = PStr "В наличии")
  /\ (forall self code st,
         assoc code BOOK_STATUSES <> None ->
         exists st',
           set_status self code st = (Ok tt, st')
           /\ valid_status (status (heap st' self)))
  /\ (forall st, reachable default_id st -> status_inv st).
Proof.
  repeat split.
  - intros t a y i s st Hs. apply status_ok_invalid in Hs.
    unfold Book_init. now rewrite Hs.
  - intros t a y i st. eexists. eexists. split; [reflexivity |].
    simpl. unfold upd. now rewrite Nat.eqb_refl.
  - intros self code st Hc. unfold set_status.
    destruct (assoc code BOOK_STATUSES) as [label |] eqn:El; [| congruence].
    eexists. split; [reflexivity |]. simpl. unfold upd.
    rewrite Nat.eqb_refl. simpl.
    exact (status_label code label El).
  - intros st Hr. induction Hr as [h | st st' _ IH Hstep].
    + intros a Ha. simpl in Ha. lia.
    + exact (step_status default_id st st' Hstep IH).
Qed.

Lemma lent_reachable : reachable "7" lent.
Proof.
  unfold lent.
  eapply reach_step.
  - eapply reach_step.
    + eapply reach_step.
      * apply (reach_start "7" (fun _ => blank)).
      * eapply step_Book with (i := None) (s := None). reflexivity.
    + eapply step_add_book with (book := 0). reflexivity.
  - eapply step_set_status with (self := 0) (code := "0");
      [simpl; lia | reflexivity].
Defined.

Lemma status_always_valid_witness :
  Book_init "7" (PStr "Dune") (PStr "Herbert") (PStr "1965") None
    (Some (PStr "1")) start = (Raise ValueError, start)
  /\ (exists st',
         set_status 0 "0" shelf = (Ok tt, st')
         /\ valid_status (status (heap st' 0)))
  /\ valid_status (status (heap lent 0)).
Proof.
  destruct (status_always_valid "7") as (Hbad & _ & Hset & Hall).
  split; [| split].
  - apply Hbad. intros [H | H]; discriminate.
  - apply Hset. discriminate.
  - apply (Hall lent lent_reachable 0). simpl. lia.
Defined.

(** * Further properties of the code *)

(** ** Search, for any criteria *)

Lemma criteria_cases (kw : kwargs) :
  (exists f v, In (f, v) kw /\ v <> "")
  \/ (forall f v, In (f, v) kw -> v = "").
Proof.
  induction kw as [| [f v] r [(g & w & Hin & Hw) | IH]].
  - right. intros f v [].
  - left. exists g, w. split; [now right | assumption].
  - destruct (string_dec v "") as [-> | Hv].
    + right. intros g w [E | Hin]; [now inversion E | eauto].
    + left. exists f, v. split; [now left | assumption].
Qed.

Lemma scan_id_decomposed (h : addr -> Book) (v : string)
  (l1 l2 : list addr) (a : addr) :
  id (h a) = PStr v ->
  (forall x, In x l1 -> id (h x) <> PStr v) ->
  scan_id h v (l1 ++ a :: l2) = Some a.
Proof.
  intros Ha. induction l1 as [| x r IH]; intro Hl1; simpl.
  - rewrite Ha. simpl. now rewrite String.eqb_refl.
  - destruct (py_eq_str (id (h x)) v) eqn:E.
    + exfalso. apply (Hl1 x (or_introl eq_refl)).
      destruct (id (h x)); simpl in E; try discriminate.
      apply String.eqb_eq in E. now subst.
    + apply IH. intros y Hy. apply Hl1. now right.
Qed.

(** X1.  Whenever [search] returns, for any criteria, it returns either the
    first Book of the list whose id is the one asked for, or, when no Book
    has the id asked for (or none was asked for), exactly the Books that
    satisfy every non-empty criterion, in the order of the list. *)
Theorem search_returns (kw : kwargs) (st : state) (r : result) :
  search kw st = Ok r ->
  match r with
  | One a =>
      exists v l1 l2,
        kw_id kw = Some v
        /\ books st = l1 ++ a :: l2
        /\ id (heap st a) = PStr v
        /\ forall x, In x l1 -> id (heap st x) <> PStr v
  | Many found =>
      found = filter (fun a => spec_matches (heap st a) kw) (books st)
      /\ forall v, kw_id kw = Some v ->
                   forall x, In x (books st) -> id (heap st x) <> PStr v
  end.
Proof.
  unfold search.
  assert (Hall : forall found,
             match scan_all (heap st) kw (books st) [] with
             | Ok l => Ok (Many l)
             | Raise e => Raise e
             end = Ok (Many found) ->
             found = filter (fun a => spec_matches (heap st a) kw) (books st)).
  { intros found. destruct (criteria_cases kw) as [Hkw | Hkw].
    - rewrite (scan_all_filter _ kw Hkw). simpl. congruence.
    - rewrite (scan_all_no_criterion _ kw Hkw).
      destruct (books st); [simpl; congruence | discriminate]. }
  destruct (kw_id kw) as [v |] eqn:Hk.
  - pose proof (scan_id_first (heap st) v (books st)) as Hs.
    destruct (scan_id (heap st) v (books st)) as [a |].
    + intro H. injection H as <-.
      destruct Hs as (l1 & l2 & Hl & Hid & Hl1). exists v, l1, l2. auto.
    + destruct r as [a | found].
      * destruct (scan_all (heap st) kw (books st) []); discriminate.
      * intro H. split; [now apply Hall |].
        intros w Hw. injection Hw as <-. exact Hs.
  - destruct r as [a | found].
    + destruct (scan_all (heap st) kw (books st) []); discriminate.
    + intro H. split; [now apply Hall | discriminate].
Qed.

Lemma search_returns_witness :
  (exists v l1 l2,
      kw_id [(Ftitle, "B"); (Fid, "3")] = Some v
      /\ books shelf = l1 ++ 2 :: l2
      /\ id (heap shelf 2) = PStr v
      /\ forall x, In x l1 -> id (heap shelf x) <> PStr v)
  /\ ([0; 2]
      = filter (fun a => spec_matches (heap shelf a) [(Fid, ""); (Ftitle, "A")])
          (books shelf)
      /\ forall v, kw_id [(Fid, ""); (Ftitle, "A")] = Some v ->
                   forall x, In x (books shelf) -> id (heap shelf x) <> PStr v).
Proof.
  split.
  - exact (search_returns [(Ftitle, "B"); (Fid, "3")] shelf (One 2) eq_refl).
  - exact (search_returns [(Fid, ""); (Ftitle, "A")] shelf (Many [0; 2])
             eq_refl).
Defined.

(** X2.  [search] ends in an exception exactly when the list is not empty,
    every criterion is empty, and no Book has the (then empty) id asked
    for; the exception is the TypeError of [reduce]. *)
Theorem search_raises (kw : kwargs) (st : state) (e : exn) :
  search kw st = Raise e <->
  e = TypeError
  /\ books st <> []
  /\ (forall f v, In (f, v) kw -> v = "")
  /\ (forall v, kw_id kw = Some v ->
                forall x, In x (books st) -> id (heap st x) <> PStr v).
Proof.
  unfold search.
  assert (Hall : match scan_all (heap st) kw (books st) [] with
                 | Ok l => Ok (Many l)
                 | Raise e' => Raise e'
                 end = Raise e <->
                 e = TypeError /\ books st <> []
                 /\ (forall f v, In (f, v) kw -> v = "")).
  { destruct (criteria_cases kw) as [Hkw | Hkw].
    - rewrite (scan_all_filter _ kw Hkw). simpl. split; [discriminate |].
      intros (_ & _ & Hno). destruct Hkw as (f & v & Hin & Hv).
      exfalso. apply Hv. exact (Hno f v Hin).
    - rewrite (scan_all_no_criterion _ kw Hkw).
      destruct (books st) as [| a r].
      + split; [discriminate | intros (_ & Hne & _); now exfalso].
      + split.
        * intro H. injection H as <-. repeat split; [discriminate | exact Hkw].
        * intros (-> & _). reflexivity. }
  destruct (kw_id kw) as [v |] eqn:Hk.
  - pose proof (scan_id_first (heap st) v (books st)) as Hs.
    destruct (scan_id (heap st) v (books st)) as [a |].
    + split; [discriminate |].
      intros (_ & _ & _ & Hno). exfalso.
      destruct Hs as (l1 & l2 & Hl & Hid & _).
      apply (Hno v eq_refl a); [| assumption].
      rewrite Hl. apply in_or_app. right. now left.
    + rewrite Hall. split.
      * intros (He & Hne & Hkw). repeat split; try assumption.
        intros w Hw. injection Hw as <-. exact Hs.
      * intros (He & Hne & Hkw & _). auto.
  - rewrite Hall. split.
    + intros (He & Hne & Hkw). repeat split; try assumption. discriminate.
    + intros (He & Hne & Hkw & _). auto.
Qed.

Lemma search_raises_witness :
  search [(Fid, ""); (Ftitle, "")] shelf = Raise TypeError.
Proof.
  apply (proj2 (search_raises [(Fid, ""); (Ftitle, "")] shelf TypeError)).
  repeat split.
  - discriminate.
  - intros f v [E | [E | []]]; now inversion E.
  - intros v Hv. injection Hv as <-.
    intros x [<- | [<- | [<- | []]]]; discriminate.
Defined.

(** X3.  With a non-empty id among the criteria [search] never fails: it
    returns the first Book of the list that has this id, whatever the other
    criteria, and the empty list when no Book has it. *)
Theorem search_by_id (kw : kwargs) (v : string) (st : state) :
  kw_id kw = Some v -> v <> "" ->
  (forall l1 l2 a,
      books st = l1 ++ a :: l2 ->
      id (heap st a) = PStr v ->
      (forall x, In x l1 -> id (heap st x) <> PStr v) ->
      search kw st = Ok (One a))
  /\ ((forall x, In x (books st) -> id (heap st x) <> PStr v) ->
      search kw st = Ok (Many []))
  /\ exists r, search kw st = Ok r.
Proof.
  intros Hk Hv. split; [| split].
  - intros l1 l2 a Hl Ha Hl1. apply (search_id_found kw v); [assumption |].
    rewrite Hl. now apply scan_id_decomposed.
  - intro Hno. now apply (search_id_absent kw v).
  - pose proof (scan_id_first (heap st) v (books st)) as Hs.
    destruct (scan_id (heap st) v (books st)) as [a |] eqn:E.
    + exists (One a). now apply (search_id_found kw v).
    + exists (Many []). now apply (search_id_absent kw v).
Qed.

Lemma search_by_id_witness :
  search [(Fid, "2"); (Ftitle, "A")] shelf = Ok (One 1)
  /\ search [(Fid, "9"); (Ftitle, "A")] shelf = Ok (Many []).
Proof.
  destruct (search_by_id [(Fid, "2"); (Ftitle, "A")] "2" shelf eq_refl)
    as (Hfound & _); [discriminate |].
  destruct (search_by_id [(Fid, "9"); (Ftitle, "A")] "9" shelf eq_refl)
    as (_ & Habsent & _); [discriminate |].
  split.
  - apply (Hfound [0] [2] 1); [reflexivity | reflexivity |].
    intros x [<- | []]. discriminate.
  - apply Habsent. intros x [<- | [<- | [<- | []]]]; discriminate.
Defined.

(** ** Removing, for any list *)

Lemma list_remove_at (x : addr) (l1 l2 : list addr) :
  ~ In x l1 -> list_remove x (l1 ++ x :: l2) = Some (l1 ++ l2).
Proof.
  induction l1 as [| y r IH]; intro Hno; simpl.
  - now rewrite Nat.eqb_refl.
  - destruct (Nat.eqb y x) eqn:E.
    + apply Nat.eqb_eq in E. exfalso. apply Hno. now left.
    + rewrite IH; [reflexivity |]. intro H. apply Hno. now right.
Qed.

(** X4.  A [delete] that succeeds removes exactly one occurrence of the
    Book from the list and nothing else: the list is one shorter, the other
    Books occur as often as before, and no object changes. *)
Theorem delete_removes_one (b : addr) (st st' : state) :
  delete b st = (Ok tt, st') ->
  heap st' = heap st
  /\ next st' = next st
  /\ List.length (books st) = S (List.length (books st'))
  /\ count_occ Nat.eq_dec (books st) b
     = S (count_occ Nat.eq_dec (books st') b)
  /\ forall x, x <> b ->
               count_occ Nat.eq_dec (books st') x
               = count_occ Nat.eq_dec (books st) x.
Proof.
  unfold delete. pose proof (list_remove_first b (books st)) as H.
  destruct (list_remove b (books st)) as [l' |]; [| discriminate].
  destruct H as (l1 & l2 & E & Hno & ->).
  intro H. injection H as <-. simpl. rewrite E.
  repeat split.
  - rewrite !length_app. simpl. lia.
  - rewrite !count_occ_app. simpl.
    destruct (Nat.eq_dec b b); [lia | congruence].
  - intros x Hx. rewrite !count_occ_app. simpl.
    destruct (Nat.eq_dec b x); [congruence | reflexivity].
Qed.

Lemma delete_removes_one_witness :
  List.length (books shelf)
  = S (List.length (books (snd (delete 1 shelf))))
  /\ count_occ Nat.eq_dec (books shelf) 1
     = S (count_occ Nat.eq_dec (books (snd (delete 1 shelf))) 1).
Proof.
  destruct (delete_removes_one 1 shelf (snd (delete 1 shelf)) eq_refl)
    as (_ & _ & Hlen & Hocc & _).
  split; assumption.
Defined.

Lemma rotate_same (b : addr) (l : list addr) :
  l ++ [b] = b :: l <-> forall x, In x l -> x = b.
Proof.
  induction l as [| y r IH]; simpl.
  - split; [intros _ x [] | reflexivity].
  - split.
    + intro H. injection H as Hy Hr. subst y.
      pose proof (proj1 IH Hr) as Hall.
      intros x [<- | Hx]; auto.
    + intro H. rewrite (H y (or_introl eq_refl)). f_equal.
      apply IH. intros x Hx. apply H. now right.
Qed.

(** X5.  Adding a Book and then deleting it gives back the state before
    when the Book was not in the list.  When it was, the first occurrence is
    the one removed and the added entry stays at the end, so that the list
    is as before only if every entry from that occurrence on is this
    Book. *)
Theorem add_then_delete (b : addr) (st : state) :
  (~ In b (books st) -> delete b (snd (add_book b st)) = (Ok tt, st))
  /\ (forall l1 l2,
         books st = l1 ++ b :: l2 -> ~ In b l1 ->
         delete b (snd (add_book b st))
         = (Ok tt, mkState (heap st) (next st) (l1 ++ l2 ++ [b]))
         /\ (l1 ++ l2 ++ [b] = books st <-> forall x, In x l2 -> x = b)).
Proof.
  unfold delete, add_book. simpl. split.
  - intro Hno.
    rewrite (list_remove_at b (books st) [] Hno), app_nil_r.
    now destruct st.
  - intros l1 l2 E Hno. split.
    + rewrite E, <- app_assoc. simpl.
      now rewrite (list_remove_at b l1 (l2 ++ [b]) Hno).
    + rewrite E, <- (rotate_same b l2). split.
      * intro H. now apply app_inv_head in H.
      * intros ->. reflexivity.
Qed.

Lemma add_then_delete_witness :
  delete 7 (snd (add_book 7 shelf)) = (Ok tt, shelf)
  /\ delete 1 (snd (add_book 1 shelf))
     = (Ok tt, mkState (heap shelf) (next shelf) [0; 2; 1])
  /\ [0; 2; 1] <> books shelf
  /\ delete 2 (snd (add_book 2 shelf))
     = (Ok tt, mkState (heap shelf) (next shelf) [0; 1; 2])
  /\ [0; 1; 2] = books shelf.
Proof.
  destruct (proj2 (add_then_delete 1 shelf) [0] [2] eq_refl) as (H1 & Hiff1).
  { simpl. intuition discriminate. }
  destruct (proj2 (add_then_delete 2 shelf) [0; 1] [] eq_refl) as (H2 & Hiff2).
  { simpl. intuition discriminate. }
  split; [| split; [exact H1 | split; [| split; [exact H2 |]]]].
  - apply (proj1 (add_then_delete 7 shelf)). simpl. intuition discriminate.
  - intro E. pose proof (proj1 Hiff1 E 2 (or_introl eq_refl)). discriminate.
  - apply (proj2 Hiff2). intros x [].
Defined.

(** ** Status changes and search *)

Lemma scan_id_ext (h h' : addr -> Book) (v : string) (l : list addr) :
  (forall a, id (h' a) = id (h a)) -> scan_id h' v l = scan_id h v l.
Proof.
  intro H. induction l as [| a r IH]; simpl; [reflexivity |].
  now rewrite H, IH.
Qed.

Lemma scan_all_ext (h h' : addr -> Book) (kw : kwargs) (l : list addr) :
  (forall a, conditions (h' a) kw = conditions (h a) kw) ->
  forall found, scan_all h' kw l found = scan_all h kw l found.
Proof.
  intro H. induction l as [| a r IH]; intro found; simpl; [reflexivity |].
  rewrite H. destruct (reduce andb (conditions (h a) kw)) as [[|] |];
    auto.
Qed.

Lemma conditions_ext (b b' : Book) (kw : kwargs) :
  (forall f, f <> Fstatus -> getattr b' f = getattr b f) ->
  (forall v, In (Fstatus, v) kw -> v = "") ->
  conditions b' kw = conditions b kw.
Proof.
  intros Hb. unfold conditions.
  induction kw as [| [f v] r IH]; intro Hkw; simpl; [reflexivity |].
  assert (Hr : forall w, In (Fstatus, w) r -> w = "")
    by (intros w Hw; apply Hkw; now right).
  destruct (truthy v) eqn:Ev; simpl; [| now apply IH].
  rewrite (IH Hr). f_equal.
  rewrite Hb; [reflexivity |].
  intros ->. rewrite (Hkw v (or_introl eq_refl)) in Ev. discriminate.
Qed.

(** X6.  Changing the status of a Book, with any code, never changes what a
    search by id, title, author or year returns: the Library holds the
    object itself, and only its status attribute is assigned. *)
Theorem set_status_keeps_search (self : addr) (code : string)
  (kw : kwargs) (st : state) :
  (forall v, In (Fstatus, v) kw -> v = "") ->
  search kw (snd (set_status self code st)) = search kw st.
Proof.
  intro Hkw. unfold set_status.
  destruct (assoc code BOOK_STATUSES) as [label |]; [| reflexivity].
  simpl. unfold search. simpl.
  set (h' := upd (heap st) self _).
  assert (Hattr : forall a f, f <> Fstatus ->
                              getattr (h' a) f = getattr (heap st a) f).
  { intros a f Hf. unfold h', upd.
    destruct (Nat.eqb a self) eqn:E; [| reflexivity].
    apply Nat.eqb_eq in E. subst a. now destruct f. }
  rewrite (scan_all_ext (heap st) h' kw (books st)).
  - destruct (kw_id kw) as [v |]; [| reflexivity].
    rewrite (scan_id_ext (heap st) h' v (books st)); [reflexivity |].
    intro a. apply (Hattr a Fid). discriminate.
  - intro a. apply conditions_ext; [apply Hattr | exact Hkw].
Qed.

Lemma set_status_keeps_search_witness :
  search [(Ftitle, "A"); (Fstatus, "")] (snd (set_status 0 "0" shelf))
  = search [(Ftitle, "A"); (Fstatus, "")] shelf.
Proof.
  apply (set_status_keeps_search 0 "0" [(Ftitle, "A"); (Fstatus, "")] shelf).
  intros v [E | [E | []]]; now inversion E.
Defined.

(** ** Loading, for any file *)

Lemma load_book_cases (default_id : string) (it : pyval) (st : state) :
  load_book default_id [] it st
  = match book_of_item it with
    | Some b => (Ok tt, push b st)
    | None => (Raise (item_error it), st)
    end.
Proof.
  destruct (book_of_item it) as [b |] eqn:Eb.
  - now apply load_book_ok.
  - revert Eb. unfold book_of_item, item_error, load_book, bind, lift, getitem.
    destruct it as [| | | | | | o]; try reflexivity.
    destruct (assoc "id" o) as [i |]; [| reflexivity].
    unfold dict_contains.
    destruct (hashable i); simpl; [| reflexivity].
    assert (Hd : match i with PStr _ => false | _ => false end = false)
      by now destruct i.
    rewrite Hd.
    destruct (assoc "title" o) as [t |]; [| reflexivity].
    destruct (assoc "author" o) as [a |]; [| reflexivity].
    destruct (assoc "year" o) as [y |]; [| reflexivity].
    destruct (assoc "status" o) as [s |]; [| reflexivity].
    unfold Book_init. simpl.
    destruct (status_ok s); [discriminate | reflexivity].
Qed.

Lemma for_each_loaded (default_id : string) (items : list pyval) (st : state) :
  for_each items (load_book default_id []) st
  = (match snd (loaded items) with
     | None => Ok tt
     | Some e => Raise e
     end, push_all (fst (loaded items)) st).
Proof.
  revert st. induction items as [| it r IH]; intro st; [reflexivity |].
  simpl. unfold bind. rewrite load_book_cases.
  destruct (book_of_item it) as [b |]; [| reflexivity].
  rewrite IH. now destruct (loaded r).
Qed.

Lemma loaded_prefix (pre : list pyval) (bs : list Book)
  (bad : pyval) (rest : list pyval) :
  Forall2 (fun it b => book_of_item it = Some b) pre bs ->
  book_of_item bad = None ->
  loaded (pre ++ bad :: rest) = (bs, Some (item_error bad)).
Proof.
  intros HF Hbad. induction HF as [| it b r bs' Hb _ IH]; simpl.
  - now rewrite Hbad.
  - now rewrite Hb, IH.
Qed.

Lemma loaded_status (items : list pyval) :
  Forall (fun b => valid_status (status b)) (fst (loaded items)).
Proof.
  induction items as [| it r IH]; simpl; [constructor |].
  destruct (book_of_item it) as [b |] eqn:Eb; [| constructor].
  destruct (loaded r) as [bs e]. simpl in *. constructor; [| assumption].
  exact (book_of_item_status it b Eb).
Qed.

(** X7.  A load that meets an element that is not a Book stops there: the
    Books of the elements before it stay appended to the Library, and the
    call ends in SystemExit when the element had the five members and only
    its status was refused, in TypeError otherwise. *)
Theorem load_data_stops_partway (default_id : string) (doc data : pyval)
  (pre : list pyval) (bs : list Book) (bad : pyval) (rest : list pyval)
  (st : state) :
  getitem doc "books" = Ok data ->
  iter data = Ok (pre ++ bad :: rest) ->
  Forall2 (fun it b => book_of_item it = Some b) pre bs ->
  book_of_item bad = None ->
  load_data default_id (Parsed doc) st
  = (Raise (escaped (item_error bad)), push_all bs st)
  /\ (escaped (item_error bad) = SystemExit
      \/ escaped (item_error bad) = TypeError)
  /\ books (push_all bs st) = books st ++ seq (next st) (List.length bs).
Proof.
  intros Hd Hi HF Hbad. split; [| split].
  - unfold load_data, try_except, bind, lift. simpl. rewrite Hd, Hi.
    rewrite for_each_loaded, (loaded_prefix pre bs bad rest HF Hbad). simpl.
    now destruct (item_error bad).
  - unfold item_error. destruct bad as [| | | | | | o]; simpl; auto.
    destruct (assoc "id" o) as [i |]; simpl; auto.
    destruct (hashable i); simpl; auto.
    destruct (assoc "title" o); simpl; auto.
    destruct (assoc "author" o); simpl; auto.
    destruct (assoc "year" o); simpl; auto.
    destruct (assoc "status" o); simpl; auto.
  - apply push_all_books.
Qed.

Lemma load_data_stops_partway_witness :
  (exists st',
      load_data "7" torn_file start = (Raise TypeError, st')
      /\ books st' = [0; 1])
  /\ (exists st',
         load_data "7" coded_file start = (Raise SystemExit, st')
         /\ books st' = [0]).
Proof.
  split.
  - destruct (load_data_stops_partway "7"
                (PDict [("books",
                         PList [item "1" "A" "X" "1990" "В наличии";
                                item "2" "B" "Y" "1991" "Выдана";
                                PDict [("id", PStr "3")]])])
                (PList [item "1" "A" "X" "1990" "В наличии";
                        item "2" "B" "Y" "1991" "Выдана";
                        PDict [("id", PStr "3")]])
                [item "1" "A" "X" "1990" "В наличии";
                 item "2" "B" "Y" "1991" "Выдана"]
                [book "1" "A" "X" "1990" "В наличии";
                 book "2" "B" "Y" "1991" "Выдана"]
                (PDict [("id", PStr "3")]) [] start
                eq_refl eq_refl) as (H & _ & Hb).
    + repeat constructor.
    + reflexivity.
    + eexists. split; [exact H | exact Hb].
  - destruct (load_data_stops_partway "7"
                (PDict [("books",
                         PList [item "1" "A" "X" "1990" "В наличии";
                                item "2" "B" "Y" "1991" "0"])])
                (PList [item "1" "A" "X" "1990" "В наличии";
                        item "2" "B" "Y" "1991" "0"])
                [item "1" "A" "X" "1990" "В наличии"]
                [book "1" "A" "X" "1990" "В наличии"]
                (item "2" "B" "Y" "1991" "0") [] start
                eq_refl eq_refl) as (H & _ & Hb).
    + repeat constructor.
    + reflexivity.
    + eexists. split; [exact H | exact Hb].
Defined.

Lemma escaped_not_caught (e : exn) :
  escaped e <> JSONDecodeError
  /\ (forall k, escaped e <> KeyError k)
  /\ escaped e <> ValueError.
Proof. destruct e; simpl; repeat split; try intro k; discriminate. Qed.

Lemma escaped_of_loop (e : exn) :
  e = TypeError \/ (exists k, e = KeyError k) \/ e = ValueError ->
  escaped e = TypeError \/ escaped e = SystemExit.
Proof. intros [-> | [(k & ->) | ->]]; simpl; auto. Qed.

Lemma getitem_raises (x : pyval) (key : string) (e : exn) :
  getitem x key = Raise e -> e = TypeError \/ exists k, e = KeyError k.
Proof.
  unfold getitem. destruct x as [| | | | | | d];
    try (intro H; injection H as <-; now left).
  destruct (assoc key d); [discriminate |].
  intro H. injection H as <-. right. now exists key.
Qed.

Lemma iter_raises (x : pyval) (e : exn) : iter x = Raise e -> e = TypeError.
Proof.
  unfold iter. destruct x; try discriminate; intro H; now injection H as <-.
Qed.

Lemma item_error_cases (it : pyval) :
  item_error it = TypeError
  \/ (exists k, item_error it = KeyError k)
  \/ item_error it = ValueError.
Proof.
  unfold item_error. destruct it as [| | | | | | o]; auto.
  destruct (assoc "id" o) as [i |]; [| right; left; eauto].
  destruct (hashable i); [| auto].
  destruct (assoc "title" o); [| right; left; eauto].
  destruct (assoc "author" o); [| right; left; eauto].
  destruct (assoc "year" o); [| right; left; eauto].
  destruct (assoc "status" o); [| right; left; eauto].
  auto.
Qed.

Lemma loaded_error (items : list pyval) (e : exn) :
  snd (loaded items) = Some e ->
  e = TypeError \/ (exists k, e = KeyError k) \/ e = ValueError.
Proof.
  induction items as [| it r IH]; simpl; [discriminate |].
  destruct (book_of_item it).
  - destruct (loaded r) as [bs e']. simpl in *. exact IH.
  - simpl. intro H. injection H as <-. apply item_error_cases.
Qed.

Lemma load_data_of_file (fp : stream) :
  exists (o : outcome unit) (bs : list Book),
    Forall (fun b => valid_status (status b)) bs
    /\ (forall e, o = Raise e ->
                  (e <> JSONDecodeError
                   /\ (forall k, e <> KeyError k)
                   /\ e <> ValueError)
                  /\ (e = TypeError \/ e = SystemExit
                      \/ json_load fp = Raise e))
    /\ forall d st, load_data d fp st = (o, push_all bs st).
Proof.
  destruct fp as [| doc | e0].
  { exists (Raise (escaped JSONDecodeError)), []. split; [constructor |]. split.
    - intros e H. injection H as <-.
      split; [exact (escaped_not_caught JSONDecodeError) |]. now left.
    - intros d st. reflexivity. }
  2: { exists (Raise (escaped e0)), []. split; [constructor |]. split.
       - intros e H. injection H as <-.
         split; [exact (escaped_not_caught e0) |].
         destruct e0; simpl; auto.
       - intros d st. unfold load_data, try_except, bind, lift. simpl.
         now destruct e0. }
  destruct (getitem doc "books") as [data | e] eqn:Hd.
  - destruct (iter data) as [items | e] eqn:Hi.
    + exists (match snd (loaded items) with
              | None => Ok tt
              | Some e => Raise (escaped e)
              end), (fst (loaded items)).
      split; [apply loaded_status |]. split.
      * intros e. destruct (snd (loaded items)) as [e' |] eqn:El;
          [| discriminate].
        intro H. injection H as <-.
        split; [exact (escaped_not_caught e') |].
        destruct (escaped_of_loop e' (loaded_error items e' El)); auto.
      * intros d st. unfold load_data, try_except, bind, lift. simpl.
        rewrite Hd, Hi, for_each_loaded.
        destruct (snd (loaded items)) as [e' |]; [| reflexivity].
        now destruct e'.
    + exists (Raise (escaped e)), []. split; [constructor |]. split.
      * intros e' H. injection H as <-.
        split; [exact (escaped_not_caught e) |].
        rewrite (iter_raises data e Hi). simpl. now left.
      * intros d st. unfold load_data, try_except, bind, lift. simpl.
        rewrite Hd, Hi. now destruct e.
  - exists (Raise (escaped e)), []. split; [constructor |]. split.
    + intros e' H. injection H as <-.
      split; [exact (escaped_not_caught e) |].
      destruct (getitem_raises doc "books" e Hd) as [-> | (k & ->)];
        simpl; now left.
    + intros d st. unfold load_data, try_except, bind, lift. simpl.
      rewrite Hd. now destruct e.
Qed.

(** X8.  KeyError, ValueError and JSONDecodeError never leave [load_data]:
    what leaves it is TypeError, SystemExit, or an exception of another
    class that [json.load] itself raised (RecursionError, OSError,
    MemoryError), which no clause catches.  And a load that fails takes
    nothing away: the Books held before are still there, in place and
    unchanged, followed by those the load had appended before it stopped. *)
Theorem load_data_raises (default_id : string) (fp : stream)
  (st st' : state) (e : exn) :
  load_data default_id fp st = (Raise e, st') ->
  (e <> JSONDecodeError /\ (forall k, e <> KeyError k) /\ e <> ValueError)
  /\ (e = TypeError \/ e = SystemExit \/ json_load fp = Raise e)
  /\ exists bs,
      books st' = books st ++ seq (next st) (List.length bs)
      /\ map (heap st') (seq (next st) (List.length bs)) = bs
      /\ Forall (fun b => valid_status (status b)) bs
      /\ forall a, a < next st -> heap st' a = heap st a.
Proof.
  destruct (load_data_of_file fp) as (o & bs & Hbs & Ho & H).
  rewrite H. intro E. injection E as -> <-.
  destruct (Ho e eq_refl) as [Hcaught Hwhich].
  split; [exact Hcaught |]. split; [exact Hwhich |].
  exists bs. split; [apply push_all_books |].
  split; [apply push_all_new |]. split; [assumption |].
  intros a Ha. now apply push_all_old.
Qed.

Lemma load_data_raises_witness :
  (load_data "7" torn_file shelf
   = (Raise TypeError, snd (load_data "7" torn_file shelf))
   /\ exists bs,
       books (snd (load_data "7" torn_file shelf))
       = [0; 1; 2] ++ seq 3 (List.length bs)
       /\ map (heap (snd (load_data "7" torn_file shelf)))
              (seq 3 (List.length bs)) = bs
       /\ Forall (fun b => valid_status (status b)) bs
       /\ forall a, a < 3 ->
                    heap (snd (load_data "7" torn_file shelf)) a
                    = heap shelf a)
  /\ (load_data "7" (Failing ValueError) shelf = (Raise SystemExit, shelf)
      /\ SystemExit <> ValueError)
  /\ (load_data "7" (Failing RecursionError) shelf
      = (Raise RecursionError, shelf)
      /\ (RecursionError = TypeError \/ RecursionError = SystemExit
          \/ json_load (Failing RecursionError) = Raise RecursionError)).
Proof.
  split; [| split].
  - split; [reflexivity |].
    exact (proj2 (proj2 (load_data_raises "7" torn_file shelf
                           (snd (load_data "7" torn_file shelf)) TypeError
                           eq_refl))).
  - split; [reflexivity |].
    exact (proj2 (proj2 (proj1 (load_data_raises "7" (Failing ValueError)
                                  shelf shelf SystemExit eq_refl)))).
  - split; [reflexivity |].
    exact (proj1 (proj2 (load_data_raises "7" (Failing RecursionError)
                           shelf shelf RecursionError eq_refl))).
Defined.

(** X9.  What a load does is decided by the file alone: for every file,
    whether [json.load] parses it or raises on it, there are an outcome and
    a list of Books such that, whatever the Library holds and whatever ids
    its Books have, [load_data] ends with that outcome and has appended
    exactly those Books. *)
Theorem load_data_ignores_library (fp : stream) :
  exists (o : outcome unit) (bs : list Book),
    forall default_id st,
      load_data default_id fp st = (o, push_all bs st)
      /\ books (push_all bs st) = books st ++ seq (next st) (List.length bs)
      /\ map (heap (push_all bs st)) (seq (next st) (List.length bs)) = bs.
Proof.
  destruct (load_data_of_file fp) as (o & bs & _ & _ & H).
  exists o, bs. intros d st.
  split; [apply H |]. split; [apply push_all_books | apply push_all_new].
Qed.

(** X10.  Saving and loading back keeps the Books attribute by attribute
    and in order also when ids repeat, as they do for Books added from the
    console; and saving the Library that was loaded writes the same
    document again. *)
Theorem save_load_any_ids (default_id : string) (st : state) :
  Forall (fun a => well_formed (heap st a)) (books st) ->
  exists st',
    load_data default_id (save st) (Library_init st) = (Ok tt, st')
    /\ map (heap st') (books st') = map (heap st) (books st)
    /\ save st' = save st.
Proof.
  intro Hwf.
  set (st' := push_all (map (heap st) (books st)) (Library_init st)).
  exists st'.
  assert (Hmap : map (heap st') (books st') = map (heap st) (books st)).
  { unfold st'. rewrite push_all_books. simpl.
    exact (push_all_new (map (heap st) (books st)) (Library_init st)). }
  split; [| split; [exact Hmap |]].
  - apply (load_data_ok_intro default_id (dumped st)
             (PList (map (fun a => Book_dict (heap st a)) (books st)))
             (map (fun a => Book_dict (heap st a)) (books st)));
      [reflexivity | reflexivity | now apply dumped_items].
  - unfold save, dumped.
    replace (map (fun a => Book_dict (heap st' a)) (books st'))
      with (map Book_dict (map (heap st') (books st'))) by apply map_map.
    rewrite Hmap. now rewrite map_map.
Qed.

Lemma save_load_any_ids_witness :
  exists st',
    load_data "7" (save (snd (load_data "7" dup_file start)))
      (Library_init (snd (load_data "7" dup_file start))) = (Ok tt, st')
    /\ map (heap st') (books st')
       = [book "1" "A" "X" "1990" "В наличии";
          book "1" "B" "Y" "1991" "Выдана"]
    /\ save st' = save (snd (load_data "7" dup_file start)).
Proof.
  apply (save_load_any_ids "7" (snd (load_data "7" dup_file start))).
  repeat (constructor;
          [split; [reflexivity
                  | first [left; reflexivity | right; reflexivity]] |]).
  constructor.
Defined.

(** ** Finding what was shelved *)






(** ** The console handlers *)

Lemma search_id_only (i : string) (st : state) :
  truthy i = true ->
  search [(Fid, i)] st
  = match scan_id (heap st) i (books st) with
    | Some a => Ok (One a)
    | None => Ok (Many [])
    end.
Proof.
  intro Hi. apply truthy_nonempty in Hi.
  pose proof (scan_id_first (heap st) i (books st)) as Hs.
  destruct (scan_id (heap st) i (books st)) as [a |] eqn:E.
  - now apply (search_id_found _ i).
  - now apply (search_id_absent _ i).
Qed.

Lemma scan_id_remove (h : addr -> Book) (i : string) (l : list addr)
  (a : addr) :
  scan_id h i l = Some a ->
  exists l1 l2,
    l = l1 ++ a :: l2
    /\ id (h a) = PStr i
    /\ (forall x, In x l1 -> id (h x) <> PStr i)
    /\ list_remove a l = Some (l1 ++ l2).
Proof.
  intro E. pose proof (scan_id_first h i l) as Hs. rewrite E in Hs.
  destruct Hs as (l1 & l2 & -> & Ha & Hl1).
  exists l1, l2. repeat split; try assumption.
  apply list_remove_at. intro Hin. exact (Hl1 a Hin Ha).
Qed.

Lemma cfor_print (l : list addr) (c : console) :
  cfor l (fun a => cbind (show a) (fun b => print [b])) c
  = (Done tt,
     mkConsole (lib c) (stdin c)
       (stdout c ++ map (fun a => Print [Obj (heap (lib c) a)]) l)).
Proof.
  revert c. induction l as [| a r IH]; intro c; simpl.
  - unfold cret. rewrite app_nil_r. now destruct c.
  - unfold cbind at 1. unfold cbind at 1. unfold show, print. simpl.
    rewrite IH. simpl. now rewrite <- app_assoc.
Qed.

Lemma delete_eval (c : console) :
  Console.delete c
  = match stdin c with
    | [] => (Halt EOFError, mkConsole (lib c) [] (stdout c ++ [Prompt ID_INPUT]))
    | i :: rest =>
        if truthy i then
          match scan_id (heap (lib c)) i (books (lib c)) with
          | Some a =>
              match list_remove a (books (lib c)) with
              | Some l =>
                  (Done tt,
                   mkConsole (mkState (heap (lib c)) (next (lib c)) l) rest
                     ((stdout c ++ [Prompt ID_INPUT])
                        ++ [Print [Text BOOK_DELETED; Obj (heap (lib c) a)]]))
              | None =>
                  (Halt (Lib ValueError),
                   mkConsole (lib c) rest (stdout c ++ [Prompt ID_INPUT]))
              end
          | None =>
              (Done tt,
               mkConsole (lib c) rest
                 ((stdout c ++ [Prompt ID_INPUT])
                    ++ [Print [Text BOOK_NOT_FOUND]]))
          end
        else
          (Done tt,
           mkConsole (lib c) rest
             ((stdout c ++ [Prompt ID_INPUT]) ++ [Print [Text INTERRUPTED]]))
    end.
Proof.
  unfold Console.delete, cbind, input_strip.
  destruct (stdin c) as [| i rest]; [reflexivity |].
  destruct (truthy i) eqn:Hi; [| reflexivity].
  unfold call_read, call. simpl. rewrite (search_id_only i (lib c) Hi).
  destruct (scan_id (heap (lib c)) i (books (lib c))) as [a |];
    [| reflexivity].
  unfold delete. simpl.
  destruct (list_remove a (books (lib c))); reflexivity.
Qed.

Lemma status_eval (c : console) :
  Console.status c
  = match stdin c with
    | [] => (Halt EOFError, mkConsole (lib c) [] (stdout c ++ [Prompt ID_INPUT]))
    | i :: rest =>
        if truthy i then
          match scan_id (heap (lib c)) i (books (lib c)) with
          | Some a =>
              match rest with
              | [] =>
                  (Halt EOFError,
                   mkConsole (lib c) []
                     ((stdout c ++ [Prompt ID_INPUT]) ++ [Prompt STATUS_INPUT]))
              | code :: rest' =>
                  if in_statuses code then
                    (Done tt,
                     mkConsole (snd (set_status a code (lib c))) rest'
                       (((stdout c ++ [Prompt ID_INPUT])
                           ++ [Prompt STATUS_INPUT])
                          ++ [Print [Text STATUS_SET;
                                     Obj (heap (snd (set_status a code (lib c)))
                                            a)]]))
                  else
                    (Done tt,
                     mkConsole (lib c) rest'
                       (((stdout c ++ [Prompt ID_INPUT])
                           ++ [Prompt STATUS_INPUT])
                          ++ [Print [Text BAD_STATUS]]))
              end
          | None =>
              (Done tt,
               mkConsole (lib c) rest
                 ((stdout c ++ [Prompt ID_INPUT])
                    ++ [Print [Text BOOK_NOT_FOUND]]))
          end
        else
          (Done tt,
           mkConsole (lib c) rest
             ((stdout c ++ [Prompt ID_INPUT]) ++ [Print [Text INTERRUPTED]]))
    end.
Proof.
  unfold Console.status, cbind, input_strip.
  destruct (stdin c) as [| i rest]; [reflexivity |].
  destruct (truthy i) eqn:Hi; [| reflexivity].
  unfold call_read, call. simpl. rewrite (search_id_only i (lib c) Hi).
  destruct (scan_id (heap (lib c)) i (books (lib c))) as [a |];
    [| reflexivity].
  simpl. destruct rest as [| code rest']; [reflexivity |].
  unfold in_statuses, set_status.
  destruct (assoc code BOOK_STATUSES); reflexivity.
Qed.

Lemma search_eval (c : console) :
  Console.search c
  = match stdin c with
    | t :: a :: y :: rest =>
        let out := ((stdout c ++ [Prompt TITLE_INPUT])
                      ++ [Prompt AUTHOR_INPUT]) ++ [Prompt YEAR_INPUT] in
        if truthy t || truthy a || truthy y then
          match filter (fun x => spec_matches (heap (lib c) x)
                                   [(Ftitle, t); (Fauthor, a); (Fyear, y)])
                  (books (lib c)) with
          | [] => (Done tt, mkConsole (lib c) rest (out ++ [Print [Text NOT_FOUND]]))
          | l =>
              (Done tt,
               mkConsole (lib c) rest
                 ((out ++ [Print [Text FOUND]])
                    ++ map (fun x => Print [Obj (heap (lib c) x)]) l))
          end
        else (Done tt, mkConsole (lib c) rest (out ++ [Print [Text INTERRUPTED]]))
    | [t; a] =>
        (Halt EOFError,
         mkConsole (lib c) []
           (((stdout c ++ [Prompt TITLE_INPUT]) ++ [Prompt AUTHOR_INPUT])
              ++ [Prompt YEAR_INPUT]))
    | [t] =>
        (Halt EOFError,
         mkConsole (lib c) []
           ((stdout c ++ [Prompt TITLE_INPUT]) ++ [Prompt AUTHOR_INPUT]))
    | [] =>
        (Halt EOFError, mkConsole (lib c) [] (stdout c ++ [Prompt TITLE_INPUT]))
    end.
Proof.
  unfold Console.search, cbind, input_strip.
  destruct (stdin c) as [| t [| a [| y rest]]]; try reflexivity.
  simpl. destruct (truthy t || truthy a || truthy y) eqn:Hg; [| reflexivity].
  unfold call_read, call, search. cbn [kw_id field_eqb fst snd lib].
  rewrite scan_all_filter.
  - cbn [app].
    destruct (filter _ (books (lib c))) as [| x l] eqn:Ef; [reflexivity |].
    unfold print at 1.
    refine (eq_trans (cfor_print (x :: l) _) _). reflexivity.
  - apply orb_true_iff in Hg. destruct Hg as [Hg | Hy].
    + apply orb_true_iff in Hg. destruct Hg as [Ht | Ha].
      * exists Ftitle, t. split; [now left | now apply truthy_nonempty].
      * exists Fauthor, a. split; [right; now left | now apply truthy_nonempty].
    + exists Fyear, y.
      split; [right; right; now left | now apply truthy_nonempty].
Qed.

(** X12.  [add] given three lines shelves a new Book with these as title,
    author and year, the status "В наличии" and the default id of the
    process, whatever was typed, and reports it; with fewer lines it stops
    at the end of the input and the Library is as before. *)
Theorem console_add (default_id : string) (c : console) :
  (forall t a y rest,
      stdin c = t :: a :: y :: rest ->
      Console.add default_id c
      = (Done tt,
         mkConsole
           (push (mkBook (PStr default_id) (PStr t) (PStr a) (PStr y)
                    (PStr "В наличии")) (lib c))
           rest
           (stdout c
              ++ [Prompt TITLE_INPUT; Prompt AUTHOR_INPUT; Prompt YEAR_INPUT;
                  Print [Text BOOK_ADDED;
                         Obj (mkBook (PStr default_id) (PStr t) (PStr a)
                                (PStr y) (PStr "В наличии"))]])))
  /\ (List.length (stdin c) < 3 ->
      exists c',
        Console.add default_id c = (Halt EOFError, c')
        /\ lib c' = lib c /\ stdin c' = []).
Proof.
  split.
  - intros t a y rest E.
    unfold Console.add, cbind, input_strip. rewrite E. simpl.
    unfold call, Book_init, add_book, show, print, push. simpl.
    unfold upd at 2. rewrite Nat.eqb_refl.
    now rewrite <- !app_assoc.
  - intro Hlen. unfold Console.add, cbind, input_strip.
    destruct (stdin c) as [| t [| a [| y rest]]]; simpl in *;
      try (eexists; repeat split; reflexivity).
    lia.
Qed.

Lemma console_add_witness :
  (exists c',
      Console.add "7" (mkConsole shelf ["Dune"; "Herbert"; "1965"] [])
      = (Done tt, c')
      /\ map (fun x => id (heap (lib c') x)) (books (lib c'))
         = [PStr "1"; PStr "2"; PStr "3"; PStr "7"])
  /\ (exists c',
         Console.add "7" (mkConsole shelf ["Dune"; "Herbert"] [])
         = (Halt EOFError, c')
         /\ lib c' = shelf /\ stdin c' = []).
Proof.
  destruct (console_add "7" (mkConsole shelf ["Dune"; "Herbert"; "1965"] []))
    as (Hadd & _).
  destruct (console_add "7" (mkConsole shelf ["Dune"; "Herbert"] []))
    as (_ & Heof).
  split.
  - eexists. split; [exact (Hadd "Dune" "Herbert" "1965" [] eq_refl) |].
    reflexivity.
  - apply Heof. simpl. lia.
Defined.

(** X13.  [delete] given a line never fails.  An empty line changes
    nothing; an id that no Book has changes nothing and is reported as not
    found; otherwise the first Book of the list with that id, and only that
    entry of the list, is removed and reported. *)
Theorem console_delete (c : console) (i : string) (rest : list string) :
  stdin c = i :: rest ->
  (i = "" ->
   Console.delete c
   = (Done tt,
      mkConsole (lib c) rest
        ((stdout c ++ [Prompt ID_INPUT]) ++ [Print [Text INTERRUPTED]])))
  /\ (i <> "" ->
      (forall x, In x (books (lib c)) -> id (heap (lib c) x) <> PStr i) ->
      Console.delete c
      = (Done tt,
         mkConsole (lib c) rest
           ((stdout c ++ [Prompt ID_INPUT]) ++ [Print [Text BOOK_NOT_FOUND]])))
  /\ (i <> "" ->
      forall l1 a l2,
        books (lib c) = l1 ++ a :: l2 ->
        id (heap (lib c) a) = PStr i ->
        (forall x, In x l1 -> id (heap (lib c) x) <> PStr i) ->
        Console.delete c
        = (Done tt,
           mkConsole (mkState (heap (lib c)) (next (lib c)) (l1 ++ l2)) rest
             ((stdout c ++ [Prompt ID_INPUT])
                ++ [Print [Text BOOK_DELETED; Obj (heap (lib c) a)]]))).
Proof.
  intro E. rewrite delete_eval, E. split; [| split].
  - intros ->. reflexivity.
  - intros Hi Hno. apply truthy_nonempty in Hi. rewrite Hi.
    pose proof (scan_id_first (heap (lib c)) i (books (lib c))) as Hs.
    destruct (scan_id (heap (lib c)) i (books (lib c))) as [a |];
      [| reflexivity].
    exfalso. destruct Hs as (l1 & l2 & Hl & Ha & _).
    apply (Hno a); [| assumption].
    rewrite Hl. apply in_or_app. right. now left.
  - intros Hi l1 a l2 Hl Ha Hl1. apply truthy_nonempty in Hi. rewrite Hi.
    rewrite Hl, (scan_id_decomposed _ i l1 l2 a Ha Hl1).
    rewrite list_remove_at; [reflexivity |].
    intro Hin. exact (Hl1 a Hin Ha).
Qed.

Lemma console_delete_witness :
  Console.delete (mkConsole doubles [""] [])
  = (Done tt,
     mkConsole doubles [] [Prompt ID_INPUT; Print [Text INTERRUPTED]])
  /\ Console.delete (mkConsole doubles ["5"] [])
     = (Done tt,
        mkConsole doubles [] [Prompt ID_INPUT; Print [Text BOOK_NOT_FOUND]])
  /\ Console.delete (mkConsole doubles ["1"] [])
     = (Done tt,
        mkConsole (mkState (heap doubles) (next doubles) [1]) []
          [Prompt ID_INPUT;
           Print [Text BOOK_DELETED;
                  Obj (book "1" "A" "X" "1990" "В наличии")]]).
Proof.
  split; [| split].
  - apply (proj1 (console_delete (mkConsole doubles [""] []) "" [] eq_refl)).
    reflexivity.
  - apply (proj1 (proj2 (console_delete (mkConsole doubles ["5"] []) "5" []
                           eq_refl))); [discriminate |].
    intros x [<- | [<- | []]]; discriminate.
  - apply (proj2 (proj2 (console_delete (mkConsole doubles ["1"] []) "1" []
                           eq_refl)) ltac:(discriminate) [] 0 [1]);
      [reflexivity | reflexivity | intros x []].
Defined.

Lemma in_statuses_codes (code : string) :
  in_statuses code = true <-> code = "0" \/ code = "1".
Proof.
  unfold in_statuses, BOOK_STATUSES. cbn [assoc].
  destruct (String.eqb "0" code) eqn:E0.
  - apply String.eqb_eq in E0. split; auto.
  - destruct (String.eqb "1" code) eqn:E1.
    + apply String.eqb_eq in E1. split; auto.
    + apply String.eqb_neq in E0, E1.
      split; [discriminate | intros [-> | ->]; congruence].
Qed.

(** X14.  [status] given the id of a Book on the shelf and then a code
    changes the status of the first Book of the list with that id when the
    code is "0" or "1", and reports a bad status and changes nothing for any
    other code; the exception of [set_status] for an unknown code cannot
    occur.  An id that no Book has is reported as not found before any code
    is asked for. *)
Theorem console_status (c : console) (i : string) (rest : list string) :
  stdin c = i :: rest -> i <> "" ->
  ((forall x, In x (books (lib c)) -> id (heap (lib c) x) <> PStr i) ->
   Console.status c
   = (Done tt,
      mkConsole (lib c) rest
        ((stdout c ++ [Prompt ID_INPUT]) ++ [Print [Text BOOK_NOT_FOUND]])))
  /\ (forall l1 a l2 code rest',
         books (lib c) = l1 ++ a :: l2 ->
         id (heap (lib c) a) = PStr i ->
         (forall x, In x l1 -> id (heap (lib c) x) <> PStr i) ->
         rest = code :: rest' ->
         exists c',
           Console.status c = (Done tt, c')
           /\ stdin c' = rest'
           /\ books (lib c') = books (lib c)
           /\ (forall x, x <> a -> heap (lib c') x = heap (lib c) x)
           /\ ((code = "0" \/ code = "1") ->
               (Ok tt, lib c') = set_status a code (lib c)
               /\ stdout c'
                  = ((stdout c ++ [Prompt ID_INPUT]) ++ [Prompt STATUS_INPUT])
                      ++ [Print [Text STATUS_SET; Obj (heap (lib c') a)]])
           /\ (~ (code = "0" \/ code = "1") ->
               lib c' = lib c
               /\ stdout c'
                  = ((stdout c ++ [Prompt ID_INPUT]) ++ [Prompt STATUS_INPUT])
                      ++ [Print [Text BAD_STATUS]])).
Proof.
  intros E Hi. apply truthy_nonempty in Hi.
  rewrite status_eval, E, Hi. split.
  - intros Hno.
    pose proof (scan_id_first (heap (lib c)) i (books (lib c))) as Hs.
    destruct (scan_id (heap (lib c)) i (books (lib c))) as [a |];
      [| reflexivity].
    exfalso. destruct Hs as (l1 & l2 & Hl & Ha & _).
    apply (Hno a); [| assumption].
    rewrite Hl. apply in_or_app. right. now left.
  - intros l1 a l2 code rest' Hl Ha Hl1 ->.
    rewrite Hl, (scan_id_decomposed _ i l1 l2 a Ha Hl1), <- Hl.
    destruct (in_statuses code) eqn:Hc.
    + pose proof (proj1 (in_statuses_codes code) Hc) as Hcodes.
      unfold in_statuses in Hc.
      eexists. split; [reflexivity |]. cbn [lib stdin stdout].
      unfold set_status.
      destruct (assoc code BOOK_STATUSES) as [label |]; [| discriminate].
      cbn [snd lib books heap].
      split; [reflexivity |]. split; [reflexivity |]. split.
      * intros x Hx. unfold upd.
        destruct (Nat.eqb x a) eqn:Ex; [| reflexivity].
        apply Nat.eqb_eq in Ex. contradiction.
      * split; [intros _; split; reflexivity | intro Hn; contradiction].
    + assert (Hn : ~ (code = "0" \/ code = "1")).
      { intro H. apply in_statuses_codes in H. congruence. }
      eexists. split; [reflexivity |]. cbn [lib stdin stdout].
      split; [reflexivity |]. split; [reflexivity |].
      split; [reflexivity |].
      split; [intro; contradiction | intros _; split; reflexivity].
Qed.

Lemma console_status_witness :
  Console.status (mkConsole doubles ["5"; "0"] [])
  = (Done tt,
     mkConsole doubles ["0"] [Prompt ID_INPUT; Print [Text BOOK_NOT_FOUND]])
  /\ exists c',
      Console.status (mkConsole doubles ["1"; "0"] []) = (Done tt, c')
      /\ stdin c' = []
      /\ books (lib c') = [0; 1]
      /\ (forall x, x <> 0 -> heap (lib c') x = heap doubles x)
      /\ ((Ok tt, lib c') = set_status 0 "0" doubles
          /\ stdout c'
             = [Prompt ID_INPUT; Prompt STATUS_INPUT;
                Print [Text STATUS_SET; Obj (heap (lib c') 0)]]).
Proof.
  split.
  - apply (proj1 (console_status (mkConsole doubles ["5"; "0"] []) "5" ["0"]
                    eq_refl ltac:(discriminate))).
    intros x [<- | [<- | []]]; discriminate.
  - destruct (proj2 (console_status (mkConsole doubles ["1"; "0"] []) "1"
                       ["0"] eq_refl ltac:(discriminate))
                [] 0 [1] "0" [] eq_refl eq_refl
                ltac:(intros x []) eq_refl)
      as (c' & Hrun & Hin & Hbooks & Hframe & Hvalid & _).
    exists c'. repeat (split; [assumption |]).
    apply Hvalid. now left.
Defined.

(** X15.  [search] given three lines never fails and never changes the
    Library: with all three empty it does not call the Library at all; else
    it prints the Books that agree with every non-empty line, in the order
    of the list, or reports that there are none. *)
Theorem console_search (c : console) (t a y : string) (rest : list string) :
  stdin c = t :: a :: y :: rest ->
  exists out,
    Console.search c
    = (Done tt,
       mkConsole (lib c) rest
         (((stdout c ++ [Prompt TITLE_INPUT]) ++ [Prompt AUTHOR_INPUT])
            ++ [Prompt YEAR_INPUT] ++ out))
    /\ (t = "" /\ a = "" /\ y = "" -> out = [Print [Text INTERRUPTED]])
    /\ (~ (t = "" /\ a = "" /\ y = "") ->
        let found :=
          filter (fun x => spec_matches (heap (lib c) x)
                             [(Ftitle, t); (Fauthor, a); (Fyear, y)])
            (books (lib c)) in
        (found = [] -> out = [Print [Text NOT_FOUND]])
        /\ (found <> [] ->
            out = Print [Text FOUND]
                  :: map (fun x => Print [Obj (heap (lib c) x)]) found)).
Proof.
  intro E. rewrite search_eval, E. cbv zeta.
  destruct (truthy t || truthy a || truthy y) eqn:Hg.
  - assert (Hne : ~ (t = "" /\ a = "" /\ y = "")).
    { intros (-> & -> & ->). discriminate. }
    destruct (filter _ (books (lib c))) as [| x l] eqn:Ef.
    + exists [Print [Text NOT_FOUND]]. split; [now rewrite <- !app_assoc |].
      split; [intro; contradiction |].
      intros _. split; [reflexivity | congruence].
    + exists (Print [Text FOUND]
              :: map (fun x0 => Print [Obj (heap (lib c) x0)]) (x :: l)).
      split; [now rewrite <- !app_assoc |].
      split; [intro; contradiction |].
      intros _. split; [discriminate | reflexivity].
  - apply orb_false_iff in Hg. destruct Hg as [Hg Hy].
    apply orb_false_iff in Hg. destruct Hg as [Ht Ha].
    assert (He : forall s, truthy s = false -> s = "").
    { intros s Hs. unfold truthy in Hs. apply negb_false_iff in Hs.
      now apply String.eqb_eq in Hs. }
    exists [Print [Text INTERRUPTED]]. split; [now rewrite <- !app_assoc |].
    split; [reflexivity |].
    intro Hne. exfalso. apply Hne. auto.
Qed.

Lemma console_search_witness :
  (exists out,
      Console.search (mkConsole shelf ["A"; ""; ""] [])
      = (Done tt,
         mkConsole shelf []
           ((([] ++ [Prompt TITLE_INPUT]) ++ [Prompt AUTHOR_INPUT])
              ++ [Prompt YEAR_INPUT] ++ out))
      /\ out = [Print [Text FOUND];
                Print [Obj (book "1" "A" "X" "1990" "В наличии")];
                Print [Obj (book "3" "A" "Z" "1992" "В наличии")]])
  /\ (exists out,
         Console.search (mkConsole shelf [""; ""; ""] [])
         = (Done tt,
            mkConsole shelf []
              ((([] ++ [Prompt TITLE_INPUT]) ++ [Prompt AUTHOR_INPUT])
                 ++ [Prompt YEAR_INPUT] ++ out))
         /\ out = [Print [Text INTERRUPTED]]).
Proof.
  split.
  - destruct (console_search (mkConsole shelf ["A"; ""; ""] []) "A" "" "" []
                eq_refl) as (out & Hrun & _ & Hsome).
    exists out. split; [exact Hrun |].
    apply Hsome; [intros (H & _); discriminate | discriminate].
  - destruct (console_search (mkConsole shelf [""; ""; ""] []) "" "" "" []
                eq_refl) as (out & Hrun & Hnone & _).
    exists out. split; [exact Hrun |]. apply Hnone. auto.
Defined.

(** X16.  [list_] prints every Book of the Library once, in the order of the
    list, with its attributes as they are; it reads nothing and changes
    nothing, so it cannot fail. *)
Theorem console_list (c : console) :
  Console.list_ c
  = (Done tt,
     mkConsole (lib c) (stdin c)
       (stdout c
          ++ map (fun a => Print [Obj (heap (lib c) a)]) (books (lib c)))).
Proof. unfold Console.list_, list_. apply cfor_print. Qed.

Lemma scan_id_in_prefix (h : addr -> Book) (i : string)
  (l1 l' : list addr) (a0 : addr) :
  In a0 l1 -> id (h a0) = PStr i ->
  exists a, scan_id h i (l1 ++ l') = Some a /\ In a l1.
Proof.
  induction l1 as [| x r IH]; intros Hin Hid; [contradiction |].
  simpl. destruct (py_eq_str (id (h x)) i) eqn:E.
  - exists x. split; [reflexivity | now left].
  - destruct Hin as [-> | Hin].
    + rewrite Hid in E. simpl in E. now rewrite String.eqb_refl in E.
    + destruct (IH Hin Hid) as (a & Ha & Hl). exists a.
      split; [assumption | now right].
Qed.

Lemma found_is_not_shadowed (h : addr -> Book) (i : string)
  (l1 l2 : list addr) (b a0 a : addr) :
  ~ In b l1 -> In a0 l1 -> id (h a0) = id (h b) ->
  scan_id h i (l1 ++ b :: l2) = Some a -> a <> b.
Proof.
  intros Hb Ha0 Hid Hs.
  destruct (py_eq_str (id (h b)) i) eqn:E.
  - assert (Hbi : id (h a0) = PStr i).
    { rewrite Hid. destruct (id (h b)); simpl in E; try discriminate.
      apply String.eqb_eq in E. now subst. }
    destruct (scan_id_in_prefix h i l1 (b :: l2) a0 Ha0 Hbi) as (a' & Ha' & Hl).
    rewrite Hs in Ha'. injection Ha' as <-. intros ->. contradiction.
  - pose proof (scan_id_first h i (l1 ++ b :: l2)) as Hf. rewrite Hs in Hf.
    destruct Hf as (_ & _ & _ & Ha & _). intros ->.
    rewrite Ha in E. simpl in E. now rewrite String.eqb_refl in E.
Qed.

(** X17.  A Book that stands in the list behind another Book with the same
    id is out of reach of the console: whatever is typed, [status] leaves
    its attributes as they are and [delete] leaves it in the list. *)
Theorem console_reaches_first_only (c : console)
  (l1 l2 : list addr) (b a0 : addr) :
  books (lib c) = l1 ++ b :: l2 ->
  ~ In b l1 -> In a0 l1 ->
  id (heap (lib c) a0) = id (heap (lib c) b) ->
  heap (lib (snd (Console.status c))) b = heap (lib c) b
  /\ count_occ Nat.eq_dec (books (lib (snd (Console.delete c)))) b
     = count_occ Nat.eq_dec (books (lib c)) b.
Proof.
  intros Hl Hb Ha0 Hid. split.
  - rewrite status_eval.
    destruct (stdin c) as [| i rest]; [reflexivity |].
    destruct (truthy i); [| reflexivity].
    destruct (scan_id (heap (lib c)) i (books (lib c))) as [a |] eqn:Hs;
      [| reflexivity].
    destruct rest as [| code rest']; [reflexivity |].
    destruct (in_statuses code); [| reflexivity].
    rewrite Hl in Hs.
    pose proof (found_is_not_shadowed _ i l1 l2 b a0 a Hb Ha0 Hid Hs) as Hne.
    unfold set_status.
    destruct (assoc code BOOK_STATUSES); [| reflexivity].
    simpl. unfold upd.
    destruct (Nat.eqb b a) eqn:E; [| reflexivity].
    apply Nat.eqb_eq in E. congruence.
  - rewrite delete_eval.
    destruct (stdin c) as [| i rest]; [reflexivity |].
    destruct (truthy i); [| reflexivity].
    destruct (scan_id (heap (lib c)) i (books (lib c))) as [a |] eqn:Hs;
      [| reflexivity].
    pose proof Hs as Hs'. rewrite Hl in Hs'.
    pose proof (found_is_not_shadowed _ i l1 l2 b a0 a Hb Ha0 Hid Hs') as Hne.
    destruct (scan_id_remove _ i _ a Hs) as (k1 & k2 & Hk & _ & _ & Hr).
    rewrite Hr. simpl. rewrite Hk, !count_occ_app. simpl.
    destruct (Nat.eq_dec a b); [contradiction | reflexivity].
Qed.

Lemma console_reaches_first_only_witness :
  heap (lib (snd (Console.status (mkConsole doubles ["1"; "0"] [])))) 1
  = heap doubles 1
  /\ count_occ Nat.eq_dec
       (books (lib (snd (Console.delete (mkConsole doubles ["1"] []))))) 1
     = count_occ Nat.eq_dec (books doubles) 1.
Proof.
  split.
  - apply (proj1 (console_reaches_first_only
                    (mkConsole doubles ["1"; "0"] []) [0] [] 1 0
                    eq_refl ltac:(simpl; intuition discriminate)
                    ltac:(now left) eq_refl)).
  - apply (proj2 (console_reaches_first_only
                    (mkConsole doubles ["1"] []) [0] [] 1 0
                    eq_refl ltac:(simpl; intuition discriminate)
                    ltac:(now left) eq_refl)).
Defined.

(** X18.  No handler ends in an exception of the Library: not the
    ValueError of [remove], not the KeyError of [set_status], not the
    TypeError that [search] raises without criteria.  Whatever the Library
    holds and whatever is typed, each handler runs to its end, or stops
    because the input is exhausted, and then the Library is as it was. *)
Theorem console_never_crashes (default_id : string) (c : console) :
  ends_well (Console.add default_id c) c
  /\ ends_well (Console.delete c) c
  /\ ends_well (Console.list_ c) c
  /\ ends_well (Console.status c) c
  /\ ends_well (Console.search c) c.
Proof.
  unfold ends_well. repeat apply conj.
  - unfold Console.add, cbind, input_strip.
    destruct (stdin c) as [| t [| a [| y rest]]]; simpl; auto.
  - rewrite delete_eval.
    destruct (stdin c) as [| i rest]; [simpl; auto |].
    destruct (truthy i); [| now left].
    destruct (scan_id (heap (lib c)) i (books (lib c))) as [a |] eqn:Hs;
      [| now left].
    destruct (scan_id_remove _ i _ a Hs) as (k1 & k2 & _ & _ & _ & Hr).
    rewrite Hr. now left.
  - unfold Console.list_, list_. rewrite cfor_print. now left.
  - rewrite status_eval.
    destruct (stdin c) as [| i rest]; [simpl; auto |].
    destruct (truthy i); [| now left].
    destruct (scan_id (heap (lib c)) i (books (lib c))) as [a |];
      [| now left].
    destruct rest as [| code rest']; [simpl; auto |].
    destruct (in_statuses code); now left.
  - rewrite search_eval.
    destruct (stdin c) as [| t [| a [| y rest]]]; simpl; auto.
    destruct (truthy t || truthy a || truthy y); [| now left].
    destruct (filter _ (books (lib c))); now left.
Qed.

(** ** What the program builds is well formed *)

Lemma book_of_item_wf (it : pyval) (b : Book) :
  book_of_item it = Some b -> well_formed b.
Proof.
  intro H. split; [| exact (book_of_item_status it b H)].
  revert H. unfold book_of_item. destruct it as [| | | | | | o]; try discriminate.
  destruct (assoc "id" o) as [i |]; [| discriminate].
  destruct (assoc "title" o); [| discriminate].
  destruct (assoc "author" o); [| discriminate].
  destruct (assoc "year" o); [| discriminate].
  destruct (assoc "status" o) as [s |]; [| discriminate].
  destruct (hashable i) eqn:Eh; simpl; [| discriminate].
  destruct (status_ok s); [| discriminate].
  intro H. now injection H as <-.
Qed.

Lemma loaded_wf (items : list pyval) : Forall well_formed (fst (loaded items)).
Proof.
  induction items as [| it r IH]; simpl; [constructor |].
  destruct (book_of_item it) as [b |] eqn:Eb; [| constructor].
  destruct (loaded r) as [bs e]. simpl in *. constructor; [| assumption].
  exact (book_of_item_wf it b Eb).
Qed.

Lemma load_data_pushes (default_id : string) (fp : stream) (st : state) :
  exists bs,
    Forall well_formed bs
    /\ snd (load_data default_id fp st) = push_all bs st.
Proof.
  unfold load_data, try_except, bind, lift.
  destruct fp as [| doc | e]; simpl.
  { exists []. split; [constructor | reflexivity]. }
  2: { exists []. split; [constructor | now destruct e]. }
  destruct (getitem doc "books") as [data | e].
  - destruct (iter data) as [items | e].
    + rewrite for_each_loaded. exists (fst (loaded items)).
      split; [apply loaded_wf |].
      destruct (snd (loaded items)) as [e |]; [| reflexivity].
      now destruct e.
    + exists []. split; [constructor | now destruct e].
  - exists []. split; [constructor | now destruct e].
Qed.

Lemma push_tidy (b : Book) (st : state) :
  well_formed b -> tidy st -> tidy (push b st).
Proof.
  intros Hb [Hin Hwf]. split; simpl.
  - intros a Ha. apply in_app_or in Ha. destruct Ha as [Ha | [<- | []]].
    + specialize (Hin a Ha). lia.
    + lia.
  - intros a Ha. unfold upd. destruct (Nat.eqb a (next st)) eqn:E;
      [assumption |].
    apply Nat.eqb_neq in E. apply Hwf. lia.
Qed.

Lemma push_all_tidy (bs : list Book) (st : state) :
  Forall well_formed bs -> tidy st -> tidy (push_all bs st).
Proof.
  revert st. induction bs as [| b r IH]; intros st Hbs Hst; [assumption |].
  inversion Hbs as [| ? ? Hb Hr]; subst. simpl.
  apply IH; [assumption |]. now apply push_tidy.
Qed.

Lemma scan_id_In (h : addr -> Book) (i : string) (l : list addr) (a : addr) :
  scan_id h i l = Some a -> In a l.
Proof.
  intro Hs. destruct (scan_id_remove h i l a Hs) as (l1 & l2 & -> & _).
  apply in_or_app. right. now left.
Qed.

Lemma built_tidy (default_id : string) (st : state) :
  built default_id st -> tidy st.
Proof.
  induction 1 as [h | fp st _ IH | c _ IH | c _ IH | c _ IH | c _ IH
                 | c _ IH].
  - split; [intros a [] | simpl; intros a Ha; lia].
  - destruct (load_data_pushes default_id fp st) as (bs & Hbs & ->).
    now apply push_all_tidy.
  - unfold Console.add, cbind, input_strip.
    destruct (stdin c) as [| t [| a [| y rest]]]; try exact IH.
    apply (push_tidy (mkBook (PStr default_id) (PStr t) (PStr a) (PStr y)
                        (PStr "В наличии")) (lib c)); [| exact IH].
    split; [reflexivity | now left].
  - rewrite delete_eval.
    destruct (stdin c) as [| i rest]; [exact IH |].
    destruct (truthy i); [| exact IH].
    destruct (scan_id (heap (lib c)) i (books (lib c))) as [a |] eqn:Hs;
      [| exact IH].
    destruct (scan_id_remove _ i _ a Hs) as (k1 & k2 & Hk & _ & _ & Hr).
    rewrite Hr. destruct IH as [Hin Hwf]. split; simpl; [| exact Hwf].
    intros x Hx. apply Hin. rewrite Hk.
    apply in_app_or in Hx. apply in_or_app.
    destruct Hx; [now left | right; now right].
  - unfold Console.list_, list_. rewrite cfor_print. exact IH.
  - rewrite status_eval.
    destruct (stdin c) as [| i rest]; [exact IH |].
    destruct (truthy i); [| exact IH].
    destruct (scan_id (heap (lib c)) i (books (lib c))) as [a |] eqn:Hs;
      [| exact IH].
    destruct rest as [| code rest']; [exact IH |].
    destruct (in_statuses code); [| exact IH].
    simpl. unfold set_status.
    destruct (assoc code BOOK_STATUSES) as [label |] eqn:El; [| exact IH].
    destruct IH as [Hin Hwf]. split; simpl; [exact Hin |].
    intros x Hx. unfold upd. destruct (Nat.eqb x a); [| now apply Hwf].
    split; simpl.
    + apply (Hwf a). apply Hin. exact (scan_id_In _ i _ a Hs).
    + exact (status_label code label El).
  - rewrite search_eval.
    destruct (stdin c) as [| t [| a [| y rest]]]; try exact IH.
    simpl. destruct (truthy t || truthy a || truthy y); [| exact IH].
    destruct (filter _ (books (lib c))); exact IH.
Qed.

(** X19.  In every Library state the program builds, by loads and by the
    handlers, whatever the files and whatever is typed, every entry of the
    list is an allocated Book object and every Book object, on the list or
    not, has an id that can be hashed and one of the two display strings as
    its status. *)
Theorem built_well_formed (default_id : string) (st : state) :
  built default_id st ->
  (forall a, In a (books st) -> a < next st)
  /\ (forall a, a < next st -> well_formed (heap st a))
  /\ Forall (fun a => well_formed (heap st a)) (books st).
Proof.
  intro Hb. destruct (built_tidy default_id st Hb) as [Hin Hwf].
  split; [exact Hin |]. split; [exact Hwf |].
  apply Forall_forall. intros a Ha. apply Hwf. now apply Hin.
Qed.

Lemma session_built : built "7" session.
Proof.
  exact (built_delete "7" session3
           (built_status "7" session2
              (built_add "7" session1
                 (built_load "7" dup_file start
                    (built_start "7" (fun _ => blank)))))).
Defined.

Lemma built_well_formed_witness :
  map (fun a => heap session a) (books session)
  = [book "1" "B" "Y" "1991" "Выдана";
     mkBook (PStr "7") (PStr "Dune") (PStr "Herbert") (PStr "1965")
       (PStr "В наличии")]
  /\ next session = 3
  /\ well_formed (heap session 0)
  /\ Forall (fun a => well_formed (heap session a)) (books session).
Proof.
  destruct (built_well_formed "7" session session_built) as (_ & Hwf & Hall).
  split; [reflexivity |]. split; [reflexivity |].
  split; [apply Hwf; simpl; lia | exact Hall].
Defined.
